(** * voice-blob: the audio-to-visual mapping pipeline

    A shallow embedding of the signal analyser (hooks/useVoiceAnalyser),
    the parameter store (lib/debugStore), the blob material with its
    vertex displacement chunk (materials/BlobMaterial, shaders/blobVertex)
    and the per-frame animator (components/VoiceReactiveBlob).

    Numbers.  A JavaScript [number] and a GLSL [float] are modelled as a
    real number: every arithmetic operation is the exact one.  Rounding,
    infinities and NaN of IEEE binary64 are outside the model, so is the
    32-bit precision of the GPU.  Comparisons [a > b ? x : y] become
    [if Rgt_dec a b then x else y]. *)

From Stdlib Require Import Reals Lra Lia ZArith ZifyNat List Bool String.
From Stdlib Require Import Strings.Byte.
Import ListNotations.

Open Scope R_scope.

(* ================================================================== *)
(** * Definitions *)
(* ================================================================== *)

(** ** JavaScript arithmetic helpers *)
Module JS.

(** [Math.max(a, b, c)] *)
Definition max3 (a b c : R) : R := Rmax (Rmax a b) c.

(** [x || 0]: a falsy number is replaced by 0.  The falsy numbers are 0
    and NaN; on a real number only the first can occur. *)
Definition or0 (x : R) : R := if Req_dec_T x 0 then 0 else x.

End JS.

(** ** lib/debugStore.ts *)
Module Store.

Record DebugStore : Type := mkStore {
  sensitivity : R;
  noiseGate : R;
  animationSpeed : R;
  isMuted : bool
}.

Definition debugStore : DebugStore :=
  {| sensitivity := 3.0; noiseGate := 0.08; animationSpeed := 1.0;
     isMuted := false |}.

(** The ranges the control surface offers for the three sliders. *)
Definition in_ui_range (s : DebugStore) : Prop :=
  0.2 <= sensitivity s <= 5 /\
  0 <= noiseGate s <= 0.3 /\
  0.1 <= animationSpeed s <= 5.

End Store.

(** ** hooks/useVoiceAnalyser *)
Module Analyser.
Import Store.

Record VoiceData : Type := mkVoice {
  amplitude : R;
  lowEnergy : R;
  midEnergy : R;
  highEnergy : R
}.

Definition EMPTY_VOICE_DATA : VoiceData :=
  {| amplitude := 0; lowEnergy := 0; midEnergy := 0; highEnergy := 0 |}.

Record MicDevice : Type := mkMic { deviceId : string; label : string }.

(** *** The platform objects the hook holds references to *)

Inductive ContextState : Type := running | suspended | closed.

Record AudioContext : Type := mkCtx { state : ContextState }.

Record AnalyserNode : Type := mkAnalyserNode {
  fftSize : nat;
  smoothingTimeConstant : R;
  minDecibels : R;
  maxDecibels : R
}.

(** [analyser.frequencyBinCount] is half the transform size. *)
Definition frequencyBinCount (a : AnalyserNode) : nat := Nat.div2 (fftSize a).

(** A capture stream: the device it was opened on, the label of its
    first audio track, and whether its tracks are still live. *)
Record MediaStream : Type := mkStream {
  streamDevice : string;
  trackLabel : string;
  live : bool
}.

(** [stream.getTracks().forEach(t => t.stop())] *)
Definition stopTracks (s : MediaStream) : MediaStream :=
  {| streamDevice := streamDevice s; trackLabel := trackLabel s;
     live := false |}.

(** A [MediaStreamAudioSourceNode]: the device of the stream it reads
    and whether it is connected to the analyser. *)
Record SourceNode : Type := mkSource {
  sourceDevice : string;
  connected : bool
}.

(** The refs and the React state of one [useVoiceAnalyser] instance,
    together with the part of the platform its callbacks act on: the
    animation-frame handles still pending and the next handle to be
    given out (handles are positive). *)
Record Hook : Type := mkHook {
  voiceData : VoiceData;
  audioContextRef : option AudioContext;
  analyserRef : option AnalyserNode;
  sourceRef : option SourceNode;
  streamRef : option MediaStream;
  rafIdRef : nat;
  frequencyDataRef : option (list byte);
  isListening : bool;
  currentMic : string;
  availableMics : list MicDevice;
  selectedDeviceId : option string;
  scheduled : list nat;
  nextHandle : nat
}.

Definition initialHook : Hook :=
  {| voiceData := EMPTY_VOICE_DATA;
     audioContextRef := None; analyserRef := None; sourceRef := None;
     streamRef := None; rafIdRef := 0%nat; frequencyDataRef := None;
     isListening := false; currentMic := EmptyString; availableMics := [];
     selectedDeviceId := None; scheduled := []; nextHandle := 1%nat |}.

Definition set_voiceData (v : VoiceData) (h : Hook) : Hook :=
  {| voiceData := v;
     audioContextRef := audioContextRef h; analyserRef := analyserRef h;
     sourceRef := sourceRef h; streamRef := streamRef h;
     rafIdRef := rafIdRef h; frequencyDataRef := frequencyDataRef h;
     isListening := isListening h; currentMic := currentMic h;
     availableMics := availableMics h;
     selectedDeviceId := selectedDeviceId h;
     scheduled := scheduled h; nextHandle := nextHandle h |}.

Definition set_frequencyData (d : option (list byte)) (h : Hook) : Hook :=
  {| voiceData := voiceData h;
     audioContextRef := audioContextRef h; analyserRef := analyserRef h;
     sourceRef := sourceRef h; streamRef := streamRef h;
     rafIdRef := rafIdRef h; frequencyDataRef := d;
     isListening := isListening h; currentMic := currentMic h;
     availableMics := availableMics h;
     selectedDeviceId := selectedDeviceId h;
     scheduled := scheduled h; nextHandle := nextHandle h |}.

(** [rafIdRef.current = requestAnimationFrame(analyse)]: a fresh handle
    is handed out, recorded as pending and stored in the ref. *)
Definition requestAnimationFrame (h : Hook) : Hook :=
  {| voiceData := voiceData h;
     audioContextRef := audioContextRef h; analyserRef := analyserRef h;
     sourceRef := sourceRef h; streamRef := streamRef h;
     rafIdRef := nextHandle h; frequencyDataRef := frequencyDataRef h;
     isListening := isListening h; currentMic := currentMic h;
     availableMics := availableMics h;
     selectedDeviceId := selectedDeviceId h;
     scheduled := nextHandle h :: scheduled h;
     nextHandle := S (nextHandle h) |}.

(** [cancelAnimationFrame(id)]: the handle is no longer pending. *)
Definition cancelAnimationFrame (id : nat) (h : Hook) : Hook :=
  {| voiceData := voiceData h;
     audioContextRef := audioContextRef h; analyserRef := analyserRef h;
     sourceRef := sourceRef h; streamRef := streamRef h;
     rafIdRef := rafIdRef h; frequencyDataRef := frequencyDataRef h;
     isListening := isListening h; currentMic := currentMic h;
     availableMics := availableMics h;
     selectedDeviceId := selectedDeviceId h;
     scheduled := remove Nat.eq_dec id (scheduled h);
     nextHandle := nextHandle h |}.

(** *** The analysis tick *)

(** [freqData[i]] of a [Uint8Array].  An index past the end reads
    [undefined] in JavaScript; the array has [frequencyBinCount] = 128
    entries and the loops stay below that, the model reads 0 there. *)
Definition byteAt (freqData : list byte) (i : nat) : R :=
  IZR (Z.of_N (Byte.to_N (nth i freqData x00))).

(** [for (let i = lo; i < hi; i++) sum += freqData[i]] *)
Definition bandSum (freqData : list byte) (lo hi : nat) : R :=
  fold_left (fun sum i => sum + byteAt freqData i) (seq lo (hi - lo)) 0.

(** [analyser.getByteFrequencyData(freqData)] overwrites the bins the
    array has room for with the current spectrum. *)
Definition getByteFrequencyData (a : AnalyserNode) (spectrum : nat -> byte)
    (freqData : list byte) : list byte :=
  map (fun i => if (i <? frequencyBinCount a)%nat then spectrum i
                else nth i freqData x00)
      (seq 0 (List.length freqData)).

(** [raw > gate ? (raw - gate) / (1 - gate) : 0] *)
Definition gated (raw gate : R) : R :=
  if Rgt_dec raw gate then (raw - gate) / (1 - gate) else 0.

Definition attack : R := 0.025.
Definition release : R := 0.992.

(** [target > current ? current + (target - current) * attack
                      : current * release] *)
Definition follow (target current : R) : R :=
  if Rgt_dec target current
  then current + (target - current) * attack
  else current * release.

(** [Math.max(0, Math.min(1, x)) || 0] *)
Definition clamp01 (x : R) : R := JS.or0 (Rmax 0 (Rmin 1 x)).

(** [Math.min(1, raw * sensitivity * weight)] *)
Definition target (raw sens weight : R) : R := Rmin 1 (raw * sens * weight).

(** The mute branch: every field fades by the factor 0.9. *)
Definition muteFade (v : VoiceData) : VoiceData :=
  {| amplitude := amplitude v * 0.9;
     lowEnergy := lowEnergy v * 0.9;
     midEnergy := midEnergy v * 0.9;
     highEnergy := highEnergy v * 0.9 |}.

(** The normal branch, from the filled [freqData] to the new record. *)
Definition analyseBands (store : DebugStore) (freqData : list byte)
    (bufferLength : nat) (v : VoiceData) : VoiceData :=
  let bassSum := bandSum freqData 0 6 in
  let midSum := bandSum freqData 6 50 in
  let highSum := bandSum freqData 50 bufferLength in
  let rawBass := bassSum / (6 * 255) in
  let rawMid := midSum / (44 * 255) in
  let rawHigh := highSum / ((INR bufferLength - 50) * 255) in
  let gate := noiseGate store in
  let rawBass := gated rawBass gate in
  let rawMid := gated rawMid gate in
  let rawHigh := gated rawHigh gate in
  let sens := sensitivity store in
  let targetBass := target rawBass sens 1.0 in
  let low := follow targetBass (lowEnergy v) in
  let targetMid := target rawMid sens 1.2 in
  let mid := follow targetMid (midEnergy v) in
  let targetHigh := target rawHigh sens 0.8 in
  let high := follow targetHigh (highEnergy v) in
  let low := clamp01 low in
  let mid := clamp01 mid in
  let high := clamp01 high in
  {| amplitude := JS.max3 low mid high;
     lowEnergy := low; midEnergy := mid; highEnergy := high |}.

(** [analyse]: one run of the analysis callback.  [store] is the
    parameter store as read during this run and [spectrum] what the
    analyser node reports. *)
Definition analyse (store : DebugStore) (spectrum : nat -> byte)
    (h : Hook) : Hook :=
  match analyserRef h, audioContextRef h with
  | Some analyser, Some _ =>
      if isMuted store then
        requestAnimationFrame (set_voiceData (muteFade (voiceData h)) h)
      else
        let freqData :=
          match frequencyDataRef h with
          | Some d => d
          | None => repeat x00 (frequencyBinCount analyser)
          end in
        let freqData := getByteFrequencyData analyser spectrum freqData in
        let bufferLength := frequencyBinCount analyser in
        let v := analyseBands store freqData bufferLength (voiceData h) in
        requestAnimationFrame
          (set_voiceData v (set_frequencyData (Some freqData) h))
  | _, _ => h
  end.

(** The platform runs the pending callback: its handle stops being
    pending and [analyse] runs. *)
Definition frameCallback (store : DebugStore) (spectrum : nat -> byte)
    (h : Hook) : Hook :=
  analyse store spectrum (cancelAnimationFrame (rafIdRef h) h).

(** A run of analysis ticks, each with the store and the spectrum of its
    moment. *)
Fixpoint ticks (inputs : list (DebugStore * (nat -> byte))) (h : Hook)
    : Hook :=
  match inputs with
  | [] => h
  | (store, spectrum) :: rest =>
      ticks rest (frameCallback store spectrum h)
  end.

(** *** Starting and stopping *)

Definition set_stream (s : option MediaStream) (h : Hook) : Hook :=
  {| voiceData := voiceData h;
     audioContextRef := audioContextRef h; analyserRef := analyserRef h;
     sourceRef := sourceRef h; streamRef := s;
     rafIdRef := rafIdRef h; frequencyDataRef := frequencyDataRef h;
     isListening := isListening h; currentMic := currentMic h;
     availableMics := availableMics h;
     selectedDeviceId := selectedDeviceId h;
     scheduled := scheduled h; nextHandle := nextHandle h |}.

Definition set_graph (c : option AudioContext) (a : option AnalyserNode)
    (s : option SourceNode) (h : Hook) : Hook :=
  {| voiceData := voiceData h;
     audioContextRef := c; analyserRef := a;
     sourceRef := s; streamRef := streamRef h;
     rafIdRef := rafIdRef h; frequencyDataRef := frequencyDataRef h;
     isListening := isListening h; currentMic := currentMic h;
     availableMics := availableMics h;
     selectedDeviceId := selectedDeviceId h;
     scheduled := scheduled h; nextHandle := nextHandle h |}.

Definition set_ui (listening : bool) (mic : string)
    (mics : list MicDevice) (selected : option string) (h : Hook) : Hook :=
  {| voiceData := voiceData h;
     audioContextRef := audioContextRef h; analyserRef := analyserRef h;
     sourceRef := sourceRef h; streamRef := streamRef h;
     rafIdRef := rafIdRef h; frequencyDataRef := frequencyDataRef h;
     isListening := listening; currentMic := mic;
     availableMics := mics;
     selectedDeviceId := selected;
     scheduled := scheduled h; nextHandle := nextHandle h |}.

Record MediaDeviceInfo : Type := mkInfo {
  kind : string;
  infoId : string;
  infoLabel : string
}.

(** What the platform answers during one [startListening] call.  A
    promise that rejects is [None] (or [false] for [resume]). *)
Record Platform : Type := mkPlatform {
  getUserMedia : option string -> option MediaStream;
  enumerateDevices : option (list MediaDeviceInfo);
  newContextState : ContextState;
  resume : bool
}.

(** [a || b] on strings: the empty string is falsy. *)
Definition orString (a b : string) : string :=
  if String.eqb a EmptyString then b else a.

(** [loadMicrophones]: the audio inputs, with a made-up label for a
    device that has none; a failure is swallowed. *)
Definition loadMicrophones (p : Platform) (h : Hook) : Hook :=
  match enumerateDevices p with
  | Some devices =>
      let audioInputs :=
        map (fun d =>
               {| deviceId := infoId d;
                  label := orString (infoLabel d)
                    ("Microphone " ++ substring 0 8 (infoId d) ++ "...") |})
            (filter (fun d => String.eqb (kind d) "audioinput") devices) in
      set_ui (isListening h) (currentMic h) audioInputs
             (selectedDeviceId h) h
  | None => h
  end.

(** The analyser node [startListening] creates when there is none. *)
Definition createAnalyser : AnalyserNode :=
  {| fftSize := 256; smoothingTimeConstant := 0.85;
     minDecibels := -90; maxDecibels := -10 |}.

(** [if (deviceId) audioConstraints.deviceId = { exact: deviceId }]: the
    device asked of the platform, none for [null] or the empty string. *)
Definition deviceConstraint (device : option string) : option string :=
  match device with
  | Some d => if String.eqb d EmptyString then None else Some d
  | None => None
  end.

(** [startListening(deviceId)]: the result of the promise and the
    state it leaves.  Everything up to the first [await] runs before the
    platform can refuse the device. *)
Definition startListening (p : Platform) (device : option string)
    (h : Hook) : bool * Hook :=
  (* Reset *)
  let h := set_voiceData EMPTY_VOICE_DATA h in
  (* Stop existing stream *)
  let h := match streamRef h with
           | Some s => set_stream (Some (stopTracks s)) h
           | None => h
           end in
  let h := if (rafIdRef h =? 0)%nat then h
           else cancelAnimationFrame (rafIdRef h) h in
  match getUserMedia p (deviceConstraint device) with
  | None => (false, h)
  | Some stream =>
      let h := set_stream (Some stream) h in
      let h := loadMicrophones p h in
      let h := set_ui (isListening h)
                 (orString (trackLabel stream) "Unknown Microphone")
                 (availableMics h)
                 (if String.eqb (streamDevice stream) EmptyString then None
                  else Some (streamDevice stream)) h in
      (* Audio context *)
      let ctx := match audioContextRef h with
                 | Some c => match state c with
                             | closed => {| state := newContextState p |}
                             | _ => c
                             end
                 | None => {| state := newContextState p |}
                 end in
      let h := set_graph (Some ctx) (analyserRef h) (sourceRef h) h in
      let resumed :=
        match state ctx with
        | suspended => if resume p then Some {| state := running |} else None
        | _ => Some ctx
        end in
      match resumed with
      | None => (false, h)
      | Some ctx =>
          (* Disconnect old source: the node the ref held is dropped *)
          let analyser := match analyserRef h with
                          | Some a => a
                          | None => createAnalyser
                          end in
          let source := {| sourceDevice := streamDevice stream;
                           connected := true |} in
          let h := set_graph (Some ctx) (Some analyser) (Some source) h in
          let h := set_ui true (currentMic h) (availableMics h)
                     (selectedDeviceId h) h in
          (true, requestAnimationFrame h)
      end
  end.

(** [switchMicrophone(deviceId)] awaits [startListening] and drops its
    result. *)
Definition switchMicrophone (p : Platform) (device : string) (h : Hook)
    : Hook :=
  snd (startListening p (Some device) h).

(** [stopListening]: the pending tick is cancelled, the source, the
    stream and the context are released and the refs cleared; what is
    released leaves the model with its ref. *)
Definition stopListening (h : Hook) : Hook :=
  let h := cancelAnimationFrame (rafIdRef h) h in
  let h := set_graph None None None h in
  let h := set_stream None h in
  let h := set_frequencyData None h in
  let h := set_voiceData EMPTY_VOICE_DATA h in
  set_ui false (currentMic h) (availableMics h) (selectedDeviceId h) h.

(** *** The phases of a start *)

(** The three steps [startListening] takes before it asks for the device:
    the voice record is reset, the held stream is stopped, the tick the
    ref names is cancelled. *)
Definition teardown (h : Hook) : Hook :=
  let h := set_voiceData EMPTY_VOICE_DATA h in
  let h := match streamRef h with
           | Some s => set_stream (Some (stopTracks s)) h
           | None => h
           end in
  if (rafIdRef h =? 0)%nat then h else cancelAnimationFrame (rafIdRef h) h.

(** The steps between the granted stream and the audio context: the
    stream is kept, the device list refreshed, label and selection set. *)
Definition adopt (p : Platform) (stream : MediaStream) (h : Hook) : Hook :=
  let h := set_stream (Some stream) h in
  let h := loadMicrophones p h in
  set_ui (isListening h)
         (orString (trackLabel stream) "Unknown Microphone")
         (availableMics h)
         (if String.eqb (streamDevice stream) EmptyString then None
          else Some (streamDevice stream)) h.

(** The context the hook goes on with: the one it holds unless that is
    missing or closed. *)
Definition contextFor (p : Platform) (h : Hook) : AudioContext :=
  match audioContextRef h with
  | Some c => match state c with
              | closed => {| state := newContextState p |}
              | _ => c
              end
  | None => {| state := newContextState p |}
  end.

(** The last steps: source and analyser are wired, the hook listens and
    asks for its first tick. *)
Definition wire (ctx : AudioContext) (stream : MediaStream) (h : Hook)
    : Hook :=
  let analyser := match analyserRef h with
                  | Some a => a
                  | None => createAnalyser
                  end in
  let source := {| sourceDevice := streamDevice stream;
                   connected := true |} in
  let h := set_graph (Some ctx) (Some analyser) (Some source) h in
  let h := set_ui true (currentMic h) (availableMics h)
             (selectedDeviceId h) h in
  requestAnimationFrame h.

(** A run of ticks during which the store says muted. *)
Definition all_muted (inputs : list (DebugStore * (nat -> byte))) : Prop :=
  Forall (fun i => isMuted (fst i) = true) inputs.

(** *** States of a session *)

(** The states a hook instance passes through: it is created, started
    or switched (with whatever the platform answers), stopped, and the
    platform runs the analysis callback while its handle is pending. *)
Inductive reachable : Hook -> Prop :=
| reach_init : reachable initialHook
| reach_start (p : Platform) (device : option string) (h : Hook) :
    reachable h -> reachable (snd (startListening p device h))
| reach_stop (h : Hook) :
    reachable h -> reachable (stopListening h)
| reach_tick (store : DebugStore) (spectrum : nat -> byte) (h : Hook) :
    reachable h -> In (rafIdRef h) (scheduled h) ->
    reachable (frameCallback store spectrum h).

(** The invariant of the data model: every field in [0,1] and the
    amplitude the largest band. *)
Definition voice_ok (v : VoiceData) : Prop :=
  0 <= lowEnergy v <= 1 /\
  0 <= midEnergy v <= 1 /\
  0 <= highEnergy v <= 1 /\
  0 <= amplitude v <= 1 /\
  amplitude v = JS.max3 (lowEnergy v) (midEnergy v) (highEnergy v).

End Analyser.

(** ** materials/BlobMaterial *)
Module Material.

Record vec3 : Type := mkVec3 { vx : R; vy : R; vz : R }.

Record BlobUniforms : Type := mkUniforms {
  time : R;
  distort : R;
  frequency : R;
  speed : R;
  surfaceDistort : R;
  surfaceFrequency : R;
  surfaceSpeed : R;
  surfaceTime : R;
  numberOfWaves : R;
  fixNormals : R;
  gooPoleAmount : R;
  surfacePoleAmount : R
}.

Definition BLOB_DEFAULTS : BlobUniforms :=
  {| time := 0;
     distort := 0.6;
     frequency := 1.5;
     speed := 0.5;
     surfaceDistort := 1.4;
     surfaceFrequency := 1.2;
     surfaceSpeed := 0.4;
     surfaceTime := 0;
     numberOfWaves := 2.5;
     fixNormals := 1.0;
     gooPoleAmount := 0.95;
     surfacePoleAmount := 0.85 |}.

Definition createBlobUniforms : BlobUniforms := BLOB_DEFAULTS.

Record MouseUniforms : Type := mkMouse {
  mouseHit : vec3;
  mouseRadius : R;
  mouseStrength : R
}.

Definition createMouseUniforms : MouseUniforms :=
  {| mouseHit := mkVec3 0 0 0; mouseRadius := 0.55; mouseStrength := 0.0 |}.

(** The part of a [BlobMaterial] the animator reads and writes. *)
Record BlobMaterial : Type := mkMaterial {
  uniforms : BlobUniforms;
  mouseUniforms : MouseUniforms;
  opacity : R;
  transparent : bool
}.

Definition set_clocks (t st : R) (u : BlobUniforms) : BlobUniforms :=
  {| time := t;
     distort := distort u;
     frequency := frequency u;
     speed := speed u;
     surfaceDistort := surfaceDistort u;
     surfaceFrequency := surfaceFrequency u;
     surfaceSpeed := surfaceSpeed u;
     surfaceTime := st;
     numberOfWaves := numberOfWaves u;
     fixNormals := fixNormals u;
     gooPoleAmount := gooPoleAmount u;
     surfacePoleAmount := surfacePoleAmount u |}.

Definition set_shape (d s sd ss : R) (u : BlobUniforms) : BlobUniforms :=
  {| time := time u;
     distort := d;
     frequency := frequency u;
     speed := s;
     surfaceDistort := sd;
     surfaceFrequency := surfaceFrequency u;
     surfaceSpeed := ss;
     surfaceTime := surfaceTime u;
     numberOfWaves := numberOfWaves u;
     fixNormals := fixNormals u;
     gooPoleAmount := gooPoleAmount u;
     surfacePoleAmount := surfacePoleAmount u |}.

(** [tick(delta)]: both clocks advance, each at its own speed. *)
Definition tick (delta : R) (u : BlobUniforms) : BlobUniforms :=
  set_clocks (time u + delta * speed u)
             (surfaceTime u + delta * surfaceSpeed u) u.

End Material.

(** ** shaders/blobVertex.glsl *)
Module Shader.
Import Material.

Definition M_PI : R := 3.14159265358979323846.
Definition NOISE_PERIOD : R := 10.0.

(** *** GLSL built-ins *)

Definition floor (x : R) : R := IZR (Int_part x).

(** [mod(x, y) = x - y * floor(x / y)] *)
Definition mod_ (x y : R) : R := x - y * floor (x / y).

Definition clamp (x lo hi : R) : R := Rmin (Rmax x lo) hi.

Definition smoothstep (edge0 edge1 x : R) : R :=
  let t := clamp ((x - edge0) / (edge1 - edge0)) 0 1 in
  t * t * (3 - 2 * t).

(** [mix(x, y, a) = x * (1 - a) + y * a] *)
Definition mix (x y a : R) : R := x * (1 - a) + y * a.

(** [pow(x, 2.0)], for the base [x >= 0] GLSL defines it on. *)
Definition pow2 (x : R) : R := x ^ 2.

Definition length3 (v : vec3) : R :=
  sqrt (vx v * vx v + vy v * vy v + vz v * vz v).

Definition sub3 (a b : vec3) : vec3 :=
  mkVec3 (vx a - vx b) (vy a - vy b) (vz a - vz b).

(** [v / s + o]: a vector divided by a scalar, a scalar added to every
    component. *)
Definition scaleOffset (v : vec3) (s o : R) : vec3 :=
  mkVec3 (vx v / s + o) (vy v / s + o) (vz v / s + o).

(** [vec3(s)] *)
Definition splat (s : R) : vec3 := mkVec3 s s s.

Section Displace.

(** The periodic gradient noise of shaders/noise.glsl, prepended to
    this chunk: position and period to value. *)
Variable pnoise : vec3 -> vec3 -> R.

(** [float displace(vec3 point)], with the uniforms it reads. *)
Definition displace (u : BlobUniforms) (m : MouseUniforms)
    (point : vec3) : R :=
  let yPos := smoothstep (-1.0) 1.0 (vy point) in
  let poleAmount := sin (yPos * M_PI) in
  let wavePoleAtten := mix poleAmount 1.0 (surfacePoleAmount u) in
  let gooPoleAtten := mix poleAmount 1.0 (gooPoleAmount u) in
  let goo :=
    pnoise (scaleOffset point (frequency u)
              (mod_ (time u * speed u) NOISE_PERIOD))
           (splat NOISE_PERIOD)
    * pow2 (distort u) in
  let surfaceNoise :=
    pnoise (scaleOffset point (surfaceFrequency u)
              (mod_ (surfaceTime u) NOISE_PERIOD))
           (splat NOISE_PERIOD) in
  let waves :=
    (vx point * sin ((vy point + surfaceNoise) * M_PI * numberOfWaves u) +
     vz point * cos ((vy point + surfaceNoise) * M_PI * numberOfWaves u))
    * 0.03 * pow2 (surfaceDistort u) in
  let base := waves * wavePoleAtten + goo * gooPoleAtten in
  let mouseDist := length3 (sub3 point (mouseHit m)) in
  let mousePush :=
    mouseStrength m *
    exp (- mouseDist * mouseDist / (mouseRadius m * mouseRadius m)) in
  base + mousePush.

End Displace.

(** *** Vector helpers of GLSL *)

Definition dot3 (a b : vec3) : R := vx a * vx b + vy a * vy b + vz a * vz b.

Definition cross3 (a b : vec3) : vec3 :=
  mkVec3 (vy a * vz b - vz a * vy b)
         (vz a * vx b - vx a * vz b)
         (vx a * vy b - vy a * vx b).

Definition add3 (a b : vec3) : vec3 :=
  mkVec3 (vx a + vx b) (vy a + vy b) (vz a + vz b).

(** [v * s] *)
Definition scale3 (v : vec3) (s : R) : vec3 :=
  mkVec3 (vx v * s) (vy v * s) (vz v * s).

(** [normalize(v) = v / length(v)] *)
Definition normalize3 (v : vec3) : vec3 :=
  mkVec3 (vx v / length3 v) (vy v / length3 v) (vz v / length3 v).

(** [vec3 orthogonal(vec3 v)] *)
Definition orthogonal (v : vec3) : vec3 :=
  normalize3
    (if Rgt_dec (Rabs (vx v)) (Rabs (vz v))
     then mkVec3 (- vy v) (vx v) 0.0
     else mkVec3 0.0 (- vz v) (vy v)).

(** *** The vertex code BlobMaterial injects around [displace] *)

Section VertexMain.

Variable pnoise : vec3 -> vec3 -> R.

(** [blobObjectNormal] as left by the replacement of
    [<beginnormal_vertex>]. *)
Definition blobObjectNormal (u : BlobUniforms) (m : MouseUniforms)
    (position normal : vec3) : vec3 :=
  let blobDisplacement := displace pnoise u m position in
  if Rgt_dec (fixNormals u) 0.5 then
    let eps := 0.005 in
    let tang := orthogonal normal in
    let bitang := normalize3 (cross3 normal tang) in
    let d0 := displace pnoise u m (add3 position (scale3 tang eps)) in
    let d1 := displace pnoise u m (add3 position (scale3 bitang eps)) in
    let displacedPos := add3 position (scale3 normal blobDisplacement) in
    let displacedTang :=
      add3 (add3 position (scale3 tang eps)) (scale3 normal d0) in
    let displacedBitang :=
      add3 (add3 position (scale3 bitang eps)) (scale3 normal d1) in
    normalize3 (cross3 (sub3 displacedTang displacedPos)
                       (sub3 displacedBitang displacedPos))
  else normal.

(** [transformed] as left by the replacement of [<begin_vertex>]. *)
Definition transformed (u : BlobUniforms) (m : MouseUniforms)
    (position normal : vec3) : vec3 :=
  add3 position (scale3 normal (displace pnoise u m position)).

End VertexMain.

End Shader.

(** ** shaders/blobFragment.glsl and the fragment code BlobMaterial injects *)
Module Fragment.
Import Material Shader.

Definition COL_HOT_PINK : vec3 := mkVec3 0.90 0.01 0.47.
Definition COL_DEEP_INDIGO : vec3 := mkVec3 0.25 0.05 0.85.
Definition COL_BLUE_VIOLET : vec3 := mkVec3 0.35 0.18 0.95.
Definition COL_WARM_ORANGE : vec3 := mkVec3 1.00 0.50 0.08.
Definition COL_MAGENTA : vec3 := mkVec3 0.88 0.0 0.60.
Definition COL_CORAL_PINK : vec3 := mkVec3 0.98 0.20 0.30.

(** [float bell(float t, float center, float width)] *)
Definition bell (t center width : R) : R :=
  let d := (t - center) / width in
  exp (- d * d * 2.0).

(** [vec3 meshGradient(float t)] *)
Definition meshGradient (t : R) : vec3 :=
  let w1 := bell t 0.0 0.38 * 1.6 in
  let w2 := bell t 1.0 0.38 * 1.4 in
  let w3 := bell t 0.32 0.32 * 1.5 in
  let w4 := bell t 0.44 0.30 * 1.3 in
  let w5 := bell t 0.72 0.40 * 1.1 in
  let w6 := bell t 0.18 0.26 * 0.8 in
  let w7 := bell t 0.58 0.36 * 0.9 in
  let wSum := w1 + w2 + w3 + w4 + w5 + w6 + w7 + 0.001 in
  let sum :=
    add3 (add3 (add3 (add3 (add3 (add3
      (scale3 COL_HOT_PINK w1)
      (scale3 COL_HOT_PINK w2))
      (scale3 COL_DEEP_INDIGO w3))
      (scale3 COL_BLUE_VIOLET w4))
      (scale3 COL_WARM_ORANGE w5))
      (scale3 COL_MAGENTA w6))
      (scale3 COL_CORAL_PINK w7) in
  mkVec3 (vx sum / wSum) (vy sum / wSum) (vz sum / wSum).

Section FragmentMain.

Variable pnoise : vec3 -> vec3 -> R.

(** [diffuseColor.rgb] as left by the replacement of [<color_fragment>]. *)
Definition diffuseColor (time : R)
    (vBlobLocalPos cameraPosition vBlobWorldPos vNormal : vec3) : vec3 :=
  let gp := vBlobLocalPos in
  let t := mod_ (time * 0.25) 10.0 in
  let n1 :=
    pnoise (mkVec3 (vx gp * 0.4 + t) (vy gp * 0.4 + t) (vz gp * 0.4 + t))
           (splat 10.0) in
  let n2 :=
    pnoise (mkVec3 (vy gp * 0.35 + t * 0.7 + 4.2)
                   (vz gp * 0.35 + t * 0.7 + 4.2)
                   (vx gp * 0.35 + t * 0.7 + 4.2))
           (splat 10.0) in
  let gradParam := n1 + n2 * 0.25 in
  let gradParam := gradParam * 0.5 + 0.5 in
  let gradParam := clamp gradParam 0.0 1.0 in
  let viewDir := normalize3 (sub3 cameraPosition vBlobWorldPos) in
  let fresnel := 1.0 - Rmax (dot3 viewDir (normalize3 vNormal)) 0.0 in
  let fresnel := fresnel ^ 3 in
  let gradParam := clamp (gradParam + fresnel * 0.08) 0.0 1.0 in
  let gradientColor := meshGradient gradParam in
  let luma := dot3 gradientColor (mkVec3 0.299 0.587 0.114) in
  let gradientColor :=
    mkVec3 (mix luma (vx gradientColor) 2.0)
           (mix luma (vy gradientColor) 2.0)
           (mix luma (vz gradientColor) 2.0) in
  mkVec3 (clamp (vx gradientColor * 1.15) 0.0 1.0)
         (clamp (vy gradientColor * 1.15) 0.0 1.0)
         (clamp (vz gradientColor * 1.15) 0.0 1.0).

End FragmentMain.

End Fragment.

(** ** components/VoiceReactiveBlob *)
Module Blob.
Import Store Analyser Material.

(** Idle blob parameters *)
Record ShapeParams : Type := mkShape {
  p_distort : R;
  p_speed : R;
  p_surfaceDistort : R;
  p_surfaceSpeed : R
}.

Definition IDLE : ShapeParams :=
  {| p_distort := distort BLOB_DEFAULTS;
     p_speed := speed BLOB_DEFAULTS;
     p_surfaceDistort := surfaceDistort BLOB_DEFAULTS;
     p_surfaceSpeed := surfaceSpeed BLOB_DEFAULTS |}.

Definition ACTIVE : ShapeParams :=
  {| p_distort := 0.70;
     p_speed := 0.58;
     p_surfaceDistort := 1.7;
     p_surfaceSpeed := 0.48 |}.

Definition SCALE_IDLE : R := 0.64.
Definition SCALE_ACTIVE : R := 0.96.

(** The mesh the component renders, once mounted. *)
Record Mesh : Type := mkMesh {
  scale : vec3;
  rotationX : R;
  rotationY : R
}.

(** The refs of one [VoiceReactiveBlob]; [levels] is what the hidden
    element carries in its [data-levels]. *)
Record Component : Type := mkComponent {
  material : BlobMaterial;
  meshRef : option Mesh;
  fadeIn : R;
  levelWriteCounter : nat;
  currentScale : R;
  smoothedHit : vec3;
  smoothedStrength : R;
  raycastFrame : nat;
  levels : option (R * R * R)
}.

(** The component after its effects ran: the mesh is mounted and the
    fade-in effect made the material transparent. *)
Definition mounted : Component :=
  {| material := {| uniforms := createBlobUniforms;
                    mouseUniforms := createMouseUniforms;
                    opacity := 0; transparent := true |};
     meshRef := Some {| scale := mkVec3 1 1 1;
                        rotationX := 0; rotationY := 0 |};
     fadeIn := 0;
     levelWriteCounter := 0;
     currentScale := SCALE_IDLE;
     smoothedHit := mkVec3 0 0 0;
     smoothedStrength := 0;
     raycastFrame := 0;
     levels := None |}.

(** What one render frame reads from outside the component: the frame
    delta, the parameter store, the shared voice record, the first
    intersection of the pointer ray with the mesh already taken to the
    mesh's local frame ([None] on a miss), and whether the hidden
    element is in the document. *)
Record Frame : Type := mkFrame {
  delta : R;
  store : DebugStore;
  voice : VoiceData;
  hit : option vec3;
  element : bool
}.

Definition attackRate : R := 0.02.
Definition releaseRate : R := 0.008.

(** [lr(cur, tgt)] *)
Definition lr (cur tgt : R) : R :=
  if Rgt_dec tgt cur then attackRate else releaseRate.

(** [cur += (tgt - cur) * lr(cur, tgt)] *)
Definition approach (cur tgt : R) : R := cur + (tgt - cur) * lr cur tgt.

(** [a.lerp(b, alpha)] *)
Definition lerp (a b : vec3) (alpha : R) : vec3 :=
  mkVec3 (vx a + (vx b - vx a) * alpha)
         (vy a + (vy b - vy a) * alpha)
         (vz a + (vz b - vz a) * alpha).

(** The smoothed scale after a frame with amplitude [amp]. *)
Definition breathe (cur amp : R) : R :=
  let targetScale := SCALE_IDLE + (SCALE_ACTIVE - SCALE_IDLE) * amp in
  let scaleRate := if Rgt_dec targetScale cur then 0.06 else 0.03 in
  cur + (targetScale - cur) * scaleRate.

(** The four smoothed shape uniforms after a frame. *)
Definition reshape (speedMult : R) (v : VoiceData) (u : BlobUniforms)
    : BlobUniforms :=
  let amp := amplitude v in
  let mid := midEnergy v in
  let high := highEnergy v in
  let targetDistort :=
    p_distort IDLE + (p_distort ACTIVE - p_distort IDLE) * amp in
  let targetSpeed :=
    (p_speed IDLE + (p_speed ACTIVE - p_speed IDLE) * amp) * speedMult in
  let surfaceAmp := Rmax mid high in
  let targetSurfaceDistort :=
    p_surfaceDistort IDLE +
    (p_surfaceDistort ACTIVE - p_surfaceDistort IDLE) * surfaceAmp in
  let targetSurfaceSpeed :=
    (p_surfaceSpeed IDLE +
     (p_surfaceSpeed ACTIVE - p_surfaceSpeed IDLE) * amp) * speedMult in
  set_shape (approach (distort u) targetDistort)
            (approach (speed u) targetSpeed)
            (approach (surfaceDistort u) targetSurfaceDistort)
            (approach (surfaceSpeed u) targetSurfaceSpeed) u.

(** The pointer strength after one evaluated raycast. *)
Definition pointerStrength (h : option vec3) (s : R) : R :=
  match h with
  | Some _ => s + (0.4 - s) * 0.12
  | None => s * 0.92
  end.

(** The callback given to [useFrame]. *)
Definition useFrame (f : Frame) (c : Component) : Component :=
  let m := material c in
  let dt := Rmin (delta f) 0.1 in
  (* Smooth fade-in over ~1.5s *)
  let fade :=
    if Rlt_dec (fadeIn c) 1 then Rmin 1 (fadeIn c + dt * 0.7)
    else fadeIn c in
  let opac :=
    if Rlt_dec (fadeIn c) 1 then fade * fade else opacity m in
  let transp :=
    if Rlt_dec (fadeIn c) 1
    then (if Rge_dec fade 1 then false else transparent m)
    else transparent m in
  (* Apply animation speed from debug store *)
  let speedMult := animationSpeed (store f) in
  let u := tick (dt * speedMult) (uniforms m) in
  (* Read voice data, map amplitude to blob parameters *)
  let v := voice f in
  let u := reshape speedMult v u in
  (* Breathing scale *)
  let s := breathe (currentScale c) (amplitude v) in
  let mesh :=
    match meshRef c with
    | Some me =>
        Some {| scale := mkVec3 s s s;
                rotationY := rotationY me + dt * 0.08 * speedMult;
                rotationX := rotationX me + dt * 0.03 * speedMult |}
    | None => None
    end in
  (* Mouse interaction: raycast every 3rd frame *)
  let mu := mouseUniforms m in
  let frameNo := S (raycastFrame c) in
  let evaluated :=
    match mesh with
    | Some _ => (frameNo mod 3 =? 0)%nat
    | None => false
    end in
  let sHit :=
    if evaluated then
      match hit f with
      | Some localHit => lerp (smoothedHit c) localHit 0.12
      | None => smoothedHit c
      end
    else smoothedHit c in
  let sStrength :=
    if evaluated then pointerStrength (hit f) (smoothedStrength c)
    else smoothedStrength c in
  let mu :=
    if evaluated then
      {| mouseHit := sHit; mouseRadius := mouseRadius mu;
         mouseStrength := sStrength |}
    else mu in
  (* Publish levels for the panel, every 6th frame *)
  let writeNo := S (levelWriteCounter c) in
  let lv :=
    if ((writeNo mod 6 =? 0)%nat && element f)%bool
    then Some (lowEnergy v, midEnergy v, highEnergy v)
    else levels c in
  {| material := {| uniforms := u; mouseUniforms := mu;
                    opacity := opac; transparent := transp |};
     meshRef := mesh;
     fadeIn := fade;
     levelWriteCounter := writeNo;
     currentScale := s;
     smoothedHit := sHit;
     smoothedStrength := sStrength;
     raycastFrame := frameNo;
     levels := lv |}.

(** A run of render frames. *)
Fixpoint frames (fs : list Frame) (c : Component) : Component :=
  match fs with
  | [] => c
  | f :: rest => frames rest (useFrame f c)
  end.

(** *** Runs of frames the properties speak about *)

(** A voice record with every field in [0,1]. *)
Definition voice_in_range (v : VoiceData) : Prop :=
  0 <= amplitude v <= 1 /\ 0 <= lowEnergy v <= 1 /\
  0 <= midEnergy v <= 1 /\ 0 <= highEnergy v <= 1.

(** A frame the host can deliver: a frame delta that is not negative, a
    store within the ranges of the panel, a voice record in range. *)
Definition valid_frame (f : Frame) : Prop :=
  0 <= delta f /\ in_ui_range (store f) /\ voice_in_range (voice f).


(** How many of the [k] frames after frame number [r] evaluate the
    pointer ray: the multiples of 3 in (r, r + k]. *)
Definition evaluations (r k : nat) : nat := ((r + k) / 3 - r / 3)%nat.

(** The frame time a run of frames stands for: each delta clamped to
    0.1 as the callback does. *)
Fixpoint elapsed (fs : list Frame) : R :=
  match fs with
  | [] => 0
  | f :: rest => Rmin (delta f) 0.1 + elapsed rest
  end.

(** The same with each clamped delta scaled by the animation speed of
    its frame. *)
Fixpoint animationTime (fs : list Frame) : R :=
  match fs with
  | [] => 0
  | f :: rest =>
      Rmin (delta f) 0.1 * animationSpeed (store f) + animationTime rest
  end.

(** Two frames that differ at most in what the pointer and the hidden
    element do. *)
Definition same_drive (f g : Frame) : Prop :=
  delta f = delta g /\ store f = store g /\ voice f = voice g.


(** Two components in the same state as far as shape, clocks, fade,
    scale and mesh go, whatever their pointer and telemetry state. *)
Definition same_animation (c c' : Component) : Prop :=
  uniforms (material c) = uniforms (material c') /\
  opacity (material c) = opacity (material c') /\
  transparent (material c) = transparent (material c') /\
  meshRef c = meshRef c' /\
  fadeIn c = fadeIn c' /\
  currentScale c = currentScale c'.

(** The bands a frame would publish. *)
Definition bandsOf (f : Frame) : R * R * R :=
  (lowEnergy (voice f), midEnergy (voice f), highEnergy (voice f)).

End Blob.

(** ** App *)
Module App.
Import Store Analyser.

(** The state the component works on: the hook it uses, the store, its
    own React state, the alerts raised so far and whether the timeout
    that hides the button is pending. *)
Record AppState : Type := mkApp {
  hook : Hook;
  store : DebugStore;
  showButton : bool;
  buttonFading : bool;
  isMuted : bool;
  alerts : nat;
  hideTimer : bool
}.

Definition initialApp : AppState :=
  {| hook := initialHook; store := debugStore;
     showButton := true; buttonFading := false; isMuted := false;
     alerts := 0; hideTimer := false |}.

(** [handleEnableMic]: the button fades, the hook starts on the default
    device; on success the button is hidden 500 ms later, otherwise the
    fade is undone and the user alerted. *)
Definition handleEnableMic (p : Platform) (a : AppState) : AppState :=
  let r := startListening p None (hook a) in
  if fst r then
    {| hook := snd r; store := store a;
       showButton := showButton a; buttonFading := true;
       isMuted := isMuted a; alerts := alerts a; hideTimer := true |}
  else
    {| hook := snd r; store := store a;
       showButton := showButton a; buttonFading := false;
       isMuted := isMuted a; alerts := S (alerts a);
       hideTimer := hideTimer a |}.

(** The timeout set by a successful [handleEnableMic] fires. *)
Definition hideButton (a : AppState) : AppState :=
  {| hook := hook a; store := store a;
     showButton := false; buttonFading := buttonFading a;
     isMuted := isMuted a; alerts := alerts a; hideTimer := false |}.

(** [handleMuteToggle] *)
Definition handleMuteToggle (a : AppState) : AppState :=
  let next := negb (isMuted a) in
  {| hook := hook a;
     store := {| sensitivity := sensitivity (store a);
                 noiseGate := noiseGate (store a);
                 animationSpeed := animationSpeed (store a);
                 Store.isMuted := next |};
     showButton := showButton a; buttonFading := buttonFading a;
     isMuted := next; alerts := alerts a; hideTimer := hideTimer a |}.

(** [<DebugPanel isActive={isListening} ... />], which renders nothing
    unless active. *)
Definition panelShown (a : AppState) : bool := isListening (hook a).

(** A run of mute toggles. *)
Definition toggles (n : nat) (a : AppState) : AppState :=
  Nat.iter n handleMuteToggle a.

End App.

(** ** Sessions used as concrete inputs *)
Module Scenario.
Import Store Analyser.

(** A platform that grants the built-in microphone. *)
Definition granting : Platform :=
  {| getUserMedia := fun _ => Some (mkStream "mic" "Built-in" true);
     enumerateDevices :=
       Some [mkInfo "audioinput" "mic" "Built-in";
             mkInfo "videoinput" "cam" "Camera"];
     newContextState := running;
     resume := true |}.

(** A platform that refuses every device. *)
Definition denying : Platform :=
  {| getUserMedia := fun _ => None;
     enumerateDevices := None;
     newContextState := running;
     resume := true |}.

(** A spectrum with every bin at full scale, and a silent one. *)
Definition loud : nat -> byte := fun _ => xff.
Definition silent : nat -> byte := fun _ => x00.

(** The store with the mute flag set. *)
Definition mutedStore : DebugStore :=
  {| sensitivity := 3.0; noiseGate := 0.08; animationSpeed := 1.0;
     isMuted := true |}.

(** A session right after a successful start. *)
Definition started : Hook := snd (startListening granting None initialHook).

(** The same session after one tick on a loud spectrum. *)
Definition listening : Hook := frameCallback debugStore loud started.

(** The started session with every level at its peak. *)
Definition peaked : Hook := set_voiceData (mkVoice 1 1 1 1) started.

(** A frame at 60 Hz with the default store, the pointer off the blob,
    at peak level and in silence. *)
Definition peakFrame : Blob.Frame :=
  {| Blob.delta := 0.016; Blob.store := debugStore;
     Blob.voice := mkVoice 1 1 1 1; Blob.hit := None;
     Blob.element := true |}.

Definition silentFrame : Blob.Frame :=
  {| Blob.delta := 0.016; Blob.store := debugStore;
     Blob.voice := EMPTY_VOICE_DATA; Blob.hit := None;
     Blob.element := true |}.

(** The mounted component with the pointer push at its full strength. *)
Definition pointing : Blob.Component :=
  {| Blob.material :=
       {| Material.uniforms := Material.createBlobUniforms;
          Material.mouseUniforms :=
            {| Material.mouseHit := Material.mkVec3 0 0 1;
               Material.mouseRadius := 0.55;
               Material.mouseStrength := 0.4 |};
          Material.opacity := 1; Material.transparent := false |};
     Blob.meshRef := Blob.meshRef Blob.mounted;
     Blob.fadeIn := 1;
     Blob.levelWriteCounter := 300;
     Blob.currentScale := Blob.SCALE_IDLE;
     Blob.smoothedHit := Material.mkVec3 0 0 1;
     Blob.smoothedStrength := 0.4;
     Blob.raycastFrame := 300;
     Blob.levels := None |}.

(** A frame at 60 Hz during which the pointer ray hits the blob at the
    local point (0, 0, 1). *)
Definition touchFrame : Blob.Frame :=
  {| Blob.delta := 0.016; Blob.store := debugStore;
     Blob.voice := EMPTY_VOICE_DATA;
     Blob.hit := Some (Material.mkVec3 0 0 1);
     Blob.element := true |}.

End Scenario.

(* ================================================================== *)
(** * Properties *)
(* ================================================================== *)

(** ** Arithmetic used throughout *)

Lemma div_le_cross (a b c d : R) :
  0 < b -> 0 < d -> a * d <= c * b -> a / b <= c / d.
Proof.
  intros Hb Hd H.
  apply (Rmult_le_reg_r (b * d)); [nra|].
  replace (a / b * (b * d)) with (a * d) by (field; lra).
  replace (c / d * (b * d)) with (c * b) by (field; lra).
  exact H.
Qed.

Lemma or0_id (x : R) : JS.or0 x = x.
Proof. unfold JS.or0. destruct (Req_dec_T x 0); lra. Qed.

(** A geometric sequence with ratio in [0,1) falls below any positive
    bound and stays there. *)
Lemma geometric_vanishes (q c eps : R) :
  0 <= q < 1 -> 0 < eps ->
  exists N : nat, forall n : nat, (N <= n)%nat -> Rabs c * q ^ n < eps.
Proof.
  intros Hq Heps.
  destruct (Req_dec c 0) as [-> | Hc].
  - exists 0%nat. intros n _. rewrite Rabs_R0. lra.
  - assert (Hac : 0 < Rabs c) by (apply Rabs_pos_lt; exact Hc).
    destruct (pow_lt_1_zero q) with (y := eps / Rabs c) as [N HN].
    + rewrite Rabs_pos_eq; lra.
    + apply Rdiv_lt_0_compat; lra.
    + exists N. intros n Hn.
      specialize (HN n Hn).
      rewrite Rabs_pos_eq in HN by (apply pow_le; lra).
      apply (Rmult_lt_compat_l (Rabs c)) in HN; [|exact Hac].
      replace (Rabs c * (eps / Rabs c)) with eps in HN by (field; lra).
      exact HN.
Qed.

(** ** The signal analyser *)
Section AnalyserFacts.
Import Store Analyser.

Lemma clamp01_range (x : R) : 0 <= clamp01 x <= 1.
Proof.
  unfold clamp01. rewrite or0_id.
  unfold Rmax, Rmin.
  destruct (Rle_dec 1 x); destruct (Rle_dec 0 _); lra.
Qed.

Lemma clamp01_id (x : R) : 0 <= x <= 1 -> clamp01 x = x.
Proof.
  intros H. unfold clamp01. rewrite or0_id.
  unfold Rmax, Rmin.
  destruct (Rle_dec 1 x); destruct (Rle_dec 0 _); lra.
Qed.

(** C3.  The gate of a band is [raw > gate ? (raw - gate) / (1 - gate) : 0];
    for a raw value in [0,1] its output does not increase when the gate
    grows within [0,0.3], and it is exactly 0 as soon as the raw value
    does not exceed the gate. *)
Theorem C3_noise_gate_monotone (r g1 g2 : R) :
  0 <= r <= 1 -> 0 <= g1 -> g1 <= g2 -> g2 <= 0.3 ->
  gated r g2 = (if Rgt_dec r g2 then (r - g2) / (1 - g2) else 0) /\
  gated r g2 <= gated r g1 /\
  (r <= g2 -> gated r g2 = 0).
Proof.
  intros Hr H1 H12 H2.
  split; [reflexivity|]. split.
  - unfold gated.
    destruct (Rgt_dec r g2) as [Hg2|Hg2]; destruct (Rgt_dec r g1) as [Hg1|Hg1].
    + apply div_le_cross; nra.
    + lra.
    + apply Rlt_le, Rdiv_lt_0_compat; lra.
    + lra.
  - intros Hle. unfold gated. destruct (Rgt_dec r g2); lra.
Qed.

Lemma C3_noise_gate_monotone_witness :
  gated 0.5 0.2 <= gated 0.5 0.1 /\ gated 0.1 0.2 = 0.
Proof.
  split.
  - apply (C3_noise_gate_monotone 0.5 0.1 0.2); lra.
  - apply (C3_noise_gate_monotone 0.1 0.1 0.2); lra.
Defined.

(** *** The invariant of the voice record *)

Lemma max3_range (a b c : R) :
  0 <= a <= 1 -> 0 <= b <= 1 -> 0 <= c <= 1 -> 0 <= JS.max3 a b c <= 1.
Proof.
  intros Ha Hb Hc. unfold JS.max3, Rmax.
  destruct (Rle_dec a b); destruct (Rle_dec _ c); lra.
Qed.

Lemma max3_scale (k a b c : R) :
  0 <= k -> JS.max3 (a * k) (b * k) (c * k) = JS.max3 a b c * k.
Proof.
  intros Hk. unfold JS.max3, Rmax.
  destruct (Rle_dec a b); destruct (Rle_dec (a * k) (b * k));
    repeat match goal with |- context [Rle_dec ?x ?y] => destruct (Rle_dec x y) end;
    nra.
Qed.

Lemma voice_ok_empty : voice_ok EMPTY_VOICE_DATA.
Proof.
  unfold voice_ok, EMPTY_VOICE_DATA, JS.max3, Rmax; simpl.
  destruct (Rle_dec 0 0); [destruct (Rle_dec 0 0)|]; lra.
Qed.

Lemma voice_ok_analyseBands store freqData n v :
  voice_ok (analyseBands store freqData n v).
Proof.
  unfold voice_ok, analyseBands; simpl.
  repeat split; try apply clamp01_range; try apply max3_range;
    apply clamp01_range.
Qed.

Lemma voice_ok_muteFade v : voice_ok v -> voice_ok (muteFade v).
Proof.
  unfold voice_ok, muteFade; simpl.
  intros (Hl & Hm & Hh & Ha & He).
  repeat split; try lra.
  rewrite He. symmetry. apply max3_scale. lra.
Qed.

Lemma voice_ok_analyse store spectrum h :
  voice_ok (voiceData h) -> voice_ok (voiceData (analyse store spectrum h)).
Proof.
  intros Hv. unfold analyse.
  destruct (analyserRef h); [|exact Hv].
  destruct (audioContextRef h); [|exact Hv].
  destruct (isMuted store); simpl.
  - apply voice_ok_muteFade, Hv.
  - apply voice_ok_analyseBands.
Qed.

Lemma voiceData_startListening p device h :
  voiceData (snd (startListening p device h)) = EMPTY_VOICE_DATA.
Proof.
  unfold startListening, loadMicrophones.
  destruct h as [v c a s st r fd l cm am sel sch nh]; simpl.
  destruct st, r; simpl; destruct (getUserMedia p _); simpl;
    try reflexivity;
    destruct (enumerateDevices p); simpl;
    destruct c as [[[]]|]; simpl; try reflexivity;
    destruct (newContextState p); simpl; try reflexivity;
    destruct (resume p); reflexivity.
Qed.

Lemma voice_ok_reachable h : reachable h -> voice_ok (voiceData h).
Proof.
  induction 1 as [|p device h _ _|h _ _|store spectrum h _ IH _].
  - apply voice_ok_empty.
  - rewrite voiceData_startListening. apply voice_ok_empty.
  - apply voice_ok_empty.
  - unfold frameCallback. apply voice_ok_analyse. exact IH.
Qed.

(** C1.  After every analysis tick of a session, through the normal
    branch or the mute branch, the three band energies and the amplitude
    lie in [0,1] and the amplitude is exactly the largest of the three
    band energies. *)
Theorem C1_voice_data_invariant (h : Hook) (store : DebugStore)
    (spectrum : nat -> byte) :
  reachable h ->
  let v := voiceData (analyse store spectrum h) in
  0 <= lowEnergy v <= 1 /\
  0 <= midEnergy v <= 1 /\
  0 <= highEnergy v <= 1 /\
  0 <= amplitude v <= 1 /\
  amplitude v = Rmax (Rmax (lowEnergy v) (midEnergy v)) (highEnergy v).
Proof.
  intros Hr. apply voice_ok_analyse, voice_ok_reachable, Hr.
Qed.

Lemma C1_voice_data_invariant_witness :
  analyserRef Scenario.started = Some createAnalyser /\
  amplitude (voiceData (analyse debugStore Scenario.loud Scenario.started))
  = Rmax (Rmax
      (lowEnergy (voiceData (analyse debugStore Scenario.loud Scenario.started)))
      (midEnergy (voiceData (analyse debugStore Scenario.loud Scenario.started))))
      (highEnergy (voiceData (analyse debugStore Scenario.loud Scenario.started))).
Proof.
  split; [reflexivity|].
  apply (C1_voice_data_invariant Scenario.started debugStore Scenario.loud).
  apply reach_start, reach_init.
Defined.

(** *** The mute branch *)

Lemma frameCallback_muted store spectrum h an ctx :
  analyserRef h = Some an -> audioContextRef h = Some ctx ->
  isMuted store = true ->
  let h' := frameCallback store spectrum h in
  voiceData h' = muteFade (voiceData h) /\
  analyserRef h' = Some an /\ audioContextRef h' = Some ctx /\
  frequencyDataRef h' = frequencyDataRef h.
Proof.
  intros Ha Hc Hm. unfold frameCallback, analyse; simpl.
  rewrite Ha, Hc, Hm. simpl. auto.
Qed.

Lemma ticks_muted inputs : forall h an ctx,
  analyserRef h = Some an -> audioContextRef h = Some ctx ->
  all_muted inputs ->
  let v0 := voiceData h in
  let v := voiceData (ticks inputs h) in
  let N := List.length inputs in
  amplitude v = amplitude v0 * 0.9 ^ N /\
  lowEnergy v = lowEnergy v0 * 0.9 ^ N /\
  midEnergy v = midEnergy v0 * 0.9 ^ N /\
  highEnergy v = highEnergy v0 * 0.9 ^ N /\
  frequencyDataRef (ticks inputs h) = frequencyDataRef h.
Proof.
  induction inputs as [|[store spectrum] rest IH]; intros h an ctx Ha Hc Hm.
  - simpl. repeat split; lra.
  - inversion Hm as [|? ? Hm1 Hm2]; subst. simpl in Hm1.
    destruct (frameCallback_muted store spectrum h an ctx Ha Hc Hm1)
      as (Hv & Ha' & Hc' & Hf').
    specialize (IH _ an ctx Ha' Hc' Hm2).
    cbv zeta in IH. rewrite Hv in IH. simpl in IH.
    destruct IH as (I1 & I2 & I3 & I4 & I5).
    cbv zeta. cbn [ticks List.length pow].
    rewrite I1, I2, I3, I4, I5, Hf'.
    repeat split; try lra.
Qed.

(** C5.  While muted, a tick of a running analyser leaves the frequency
    data alone and multiplies each of the four fields by 0.9: after N such
    ticks a field is its initial value times 0.9^N, positive when it
    started positive, and below any positive bound once N is large
    enough. *)
Theorem C5_mute_fade (h : Hook) (an : AnalyserNode) (ctx : AudioContext) :
  analyserRef h = Some an -> audioContextRef h = Some ctx ->
  let v0 := voiceData h in
  0 < amplitude v0 -> 0 < lowEnergy v0 ->
  0 < midEnergy v0 -> 0 < highEnergy v0 ->
  (forall inputs, all_muted inputs ->
     let v := voiceData (ticks inputs h) in
     let N := List.length inputs in
     frequencyDataRef (ticks inputs h) = frequencyDataRef h /\
     amplitude v = amplitude v0 * 0.9 ^ N /\
     lowEnergy v = lowEnergy v0 * 0.9 ^ N /\
     midEnergy v = midEnergy v0 * 0.9 ^ N /\
     highEnergy v = highEnergy v0 * 0.9 ^ N /\
     0 < amplitude v /\ 0 < lowEnergy v /\
     0 < midEnergy v /\ 0 < highEnergy v) /\
  (forall eps, 0 < eps ->
     exists N0 : nat, forall inputs,
       all_muted inputs -> (N0 <= List.length inputs)%nat ->
       let v := voiceData (ticks inputs h) in
       amplitude v < eps /\ lowEnergy v < eps /\
       midEnergy v < eps /\ highEnergy v < eps).
Proof.
  intros Ha Hc v0 Pa Pl Pm Ph.
  assert (Hq : 0 <= 0.9 < 1) by lra.
  split.
  - intros inputs Hm.
    destruct (ticks_muted inputs h an ctx Ha Hc Hm) as (E1 & E2 & E3 & E4 & E5).
    cbv zeta in *. fold v0 in E1, E2, E3, E4.
    assert (Hp : 0 < 0.9 ^ List.length inputs) by (apply pow_lt; lra).
    rewrite E1, E2, E3, E4.
    repeat split; auto; apply Rmult_lt_0_compat; assumption.
  - intros eps Heps.
    destruct (geometric_vanishes 0.9 (amplitude v0) eps Hq Heps) as [Na HNa].
    destruct (geometric_vanishes 0.9 (lowEnergy v0) eps Hq Heps) as [Nl HNl].
    destruct (geometric_vanishes 0.9 (midEnergy v0) eps Hq Heps) as [Nm HNm].
    destruct (geometric_vanishes 0.9 (highEnergy v0) eps Hq Heps) as [Nh HNh].
    exists (Na + Nl + Nm + Nh)%nat. intros inputs Hm Hlen.
    destruct (ticks_muted inputs h an ctx Ha Hc Hm) as (E1 & E2 & E3 & E4 & _).
    cbv zeta in *. fold v0 in E1, E2, E3, E4.
    rewrite E1, E2, E3, E4.
    specialize (HNa (List.length inputs)). specialize (HNl (List.length inputs)).
    specialize (HNm (List.length inputs)). specialize (HNh (List.length inputs)).
    rewrite Rabs_pos_eq in HNa, HNl, HNm, HNh by lra.
    repeat split; [apply HNa|apply HNl|apply HNm|apply HNh]; lia.
Qed.

Lemma C5_mute_fade_witness :
  amplitude (voiceData
    (ticks [(Scenario.mutedStore, Scenario.silent);
            (Scenario.mutedStore, Scenario.loud)] Scenario.peaked))
  = 1 * 0.9 ^ 2.
Proof.
  assert (H1 : 0 < 1) by lra.
  destruct (C5_mute_fade Scenario.peaked createAnalyser (mkCtx running)
              eq_refl eq_refl H1 H1 H1 H1) as [Hall _].
  destruct (Hall [(Scenario.mutedStore, Scenario.silent);
                  (Scenario.mutedStore, Scenario.loud)]) as (_ & Ha & _).
  - repeat constructor.
  - exact Ha.
Defined.

(** *** The envelope follower *)

Lemma follow_rise (c : R) :
  0 <= c < 1 ->
  clamp01 (follow 1 c) = c + 0.025 * (1 - c) /\
  c < clamp01 (follow 1 c) < 1.
Proof.
  intros Hc.
  assert (E : follow 1 c = c + 0.025 * (1 - c)).
  { unfold follow, attack. destruct (Rgt_dec 1 c); lra. }
  rewrite E, clamp01_id by lra. lra.
Qed.

Lemma follow_fall (c : R) :
  0 <= c <= 1 -> clamp01 (follow 0 c) = c * 0.992.
Proof.
  intros Hc.
  assert (E : follow 0 c = c * 0.992).
  { unfold follow, release. destruct (Rgt_dec 0 c); lra. }
  rewrite E, clamp01_id by lra. reflexivity.
Qed.

Lemma rise_range (n : nat) :
  0 <= Nat.iter n (fun c => clamp01 (follow 1 c)) 0 < 1.
Proof.
  induction n as [|n IH]; simpl; [lra|].
  destruct (follow_rise _ IH) as [_ H]. lra.
Qed.

Lemma fall_closed (n : nat) :
  Nat.iter n (fun c => clamp01 (follow 0 c)) 1 = 0.992 ^ n.
Proof.
  induction n as [|n IH]; simpl; [reflexivity|].
  rewrite IH, follow_fall; [lra|].
  assert (0 <= 0.992 ^ n <= 1); [|lra].
  split; [apply pow_le; lra|].
  rewrite <- (pow1 n). apply pow_incr. lra.
Qed.



(** *** Whole ticks on a constant spectrum *)

Lemma fold_band_const (d : list byte) (b : byte) (l : list nat) :
  (forall i, In i l -> nth i d x00 = b) ->
  forall acc,
    fold_left (fun sum i => sum + byteAt d i) l acc =
    acc + INR (List.length l) * IZR (Z.of_N (Byte.to_N b)).
Proof.
  induction l as [|i l IH]; intros H acc.
  - simpl. lra.
  - cbn [fold_left]. rewrite IH by (intros j Hj; apply H; right; exact Hj).
    unfold byteAt at 1. rewrite (H i) by (left; reflexivity).
    change (List.length (i :: l)) with (S (List.length l)).
    rewrite S_INR. lra.
Qed.

Lemma bandSum_const (d : list byte) (b : byte) (lo hi : nat) :
  (forall i, (lo <= i < hi)%nat -> nth i d x00 = b) ->
  bandSum d lo hi = INR (hi - lo) * IZR (Z.of_N (Byte.to_N b)).
Proof.
  intros H. unfold bandSum.
  rewrite (fold_band_const d b).
  - rewrite length_seq. lra.
  - intros i Hi. apply in_seq in Hi. apply H. lia.
Qed.

Lemma nth_map_seq {A : Type} (f : nat -> A) (n i : nat) (d : A) :
  (i < n)%nat -> nth i (map f (seq 0 n)) d = f i.
Proof.
  intros Hi.
  rewrite (nth_indep _ d (f 0%nat)) by (rewrite length_map, length_seq; exact Hi).
  rewrite (map_nth f (seq 0 n) 0%nat i), seq_nth by exact Hi.
  reflexivity.
Qed.

Lemma nth_getByteFrequencyData a spectrum d i :
  (i < List.length d)%nat -> (i < frequencyBinCount a)%nat ->
  nth i (getByteFrequencyData a spectrum d) x00 = spectrum i.
Proof.
  intros Hd Ha. unfold getByteFrequencyData.
  rewrite nth_map_seq by exact Hd.
  apply Nat.ltb_lt in Ha. rewrite Ha. reflexivity.
Qed.

Lemma started_state :
  Scenario.started =
  {| voiceData := EMPTY_VOICE_DATA;
     audioContextRef := Some (mkCtx running);
     analyserRef := Some createAnalyser;
     sourceRef := Some (mkSource "mic" true);
     streamRef := Some (mkStream "mic" "Built-in" true);
     rafIdRef := 1; frequencyDataRef := None;
     isListening := true; currentMic := "Built-in";
     availableMics := [mkMic "mic" "Built-in"];
     selectedDeviceId := Some "mic"%string;
     scheduled := [1%nat]; nextHandle := 2 |}.
Proof. reflexivity. Qed.

Lemma reachable_started : reachable Scenario.started.
Proof. apply reach_start, reach_init. Qed.

Lemma reachable_listening : reachable Scenario.listening.
Proof.
  apply reach_tick; [apply reachable_started|].
  rewrite started_state. simpl. left. reflexivity.
Qed.

Lemma length_getByteFrequencyData a spectrum d :
  List.length (getByteFrequencyData a spectrum d) = List.length d.
Proof.
  unfold getByteFrequencyData. rewrite length_map, length_seq. reflexivity.
Qed.

(** The buffer an unmuted tick works on. *)
Lemma frameCallback_unmuted store spectrum h an ctx :
  analyserRef h = Some an -> audioContextRef h = Some ctx ->
  isMuted store = false ->
  let d := getByteFrequencyData an spectrum
             match frequencyDataRef h with
             | Some d => d
             | None => repeat x00 (frequencyBinCount an)
             end in
  let h' := frameCallback store spectrum h in
  voiceData h' = analyseBands store d (frequencyBinCount an) (voiceData h) /\
  analyserRef h' = Some an /\ audioContextRef h' = Some ctx /\
  frequencyDataRef h' = Some d.
Proof.
  intros Ha Hc Hm. unfold frameCallback, analyse; simpl.
  rewrite Ha, Hc, Hm. simpl. auto.
Qed.

(** On a buffer of 128 equal bytes every band has the same raw level. *)
Lemma analyseBands_const store (d : list byte) (b : byte) v :
  (forall i, (i < 128)%nat -> nth i d x00 = b) ->
  let raw := IZR (Z.of_N (Byte.to_N b)) / 255 in
  let band w cur :=
    clamp01 (follow (target (gated raw (noiseGate store))
                            (sensitivity store) w) cur) in
  let v' := analyseBands store d 128 v in
  lowEnergy v' = band 1.0 (lowEnergy v) /\
  midEnergy v' = band 1.2 (midEnergy v) /\
  highEnergy v' = band 0.8 (highEnergy v) /\
  amplitude v' = JS.max3 (lowEnergy v') (midEnergy v') (highEnergy v').
Proof.
  intros H. cbv zeta. unfold analyseBands. cbn [lowEnergy midEnergy highEnergy amplitude].
  rewrite !(bandSum_const d b) by (intros i Hi; apply H; lia).
  replace (INR (6 - 0)) with 6 by (simpl; lra).
  replace (INR (50 - 6)) with 44 by (rewrite minus_INR by lia; rewrite !INR_IZR_INZ; simpl; lra).
  replace (INR (128 - 50)) with 78 by (rewrite minus_INR by lia; rewrite !INR_IZR_INZ; simpl; lra).
  replace (INR 128 - 50) with 78 by (rewrite INR_IZR_INZ; simpl; lra).
  set (x := IZR (Z.of_N (Byte.to_N b))).
  replace (6 * x / (6 * 255)) with (x / 255) by (field; lra).
  replace (44 * x / (44 * 255)) with (x / 255) by (field; lra).
  replace (78 * x / (78 * 255)) with (x / 255) by (field; lra).
  repeat split; reflexivity.
Qed.

Lemma gated_full (g : R) : 0 <= g < 1 -> gated 1 g = 1.
Proof.
  intros Hg. unfold gated. destruct (Rgt_dec 1 g); [field; lra|lra].
Qed.

Lemma gated_silence (g : R) : 0 <= g -> gated 0 g = 0.
Proof. intros Hg. unfold gated. destruct (Rgt_dec 0 g); [lra|reflexivity]. Qed.

Lemma target_full (sens w : R) : 1 <= sens * w -> target 1 sens w = 1.
Proof.
  intros H. unfold target, Rmin. destruct (Rle_dec 1 (1 * sens * w)); lra.
Qed.

Lemma target_silence (sens w : R) : target 0 sens w = 0.
Proof.
  unfold target, Rmin. destruct (Rle_dec 1 (0 * sens * w)); lra.
Qed.

(** A tick of a session with the 128-bin analyser on a constant spectrum. *)
Lemma frameCallback_const store (b : byte) h ctx :
  analyserRef h = Some createAnalyser -> audioContextRef h = Some ctx ->
  (forall d, frequencyDataRef h = Some d -> List.length d = 128%nat) ->
  isMuted store = false ->
  let raw := IZR (Z.of_N (Byte.to_N b)) / 255 in
  let band w cur :=
    clamp01 (follow (target (gated raw (noiseGate store))
                            (sensitivity store) w) cur) in
  let h' := frameCallback store (fun _ => b) h in
  lowEnergy (voiceData h') = band 1.0 (lowEnergy (voiceData h)) /\
  midEnergy (voiceData h') = band 1.2 (midEnergy (voiceData h)) /\
  highEnergy (voiceData h') = band 0.8 (highEnergy (voiceData h)) /\
  amplitude (voiceData h') =
    JS.max3 (lowEnergy (voiceData h')) (midEnergy (voiceData h'))
            (highEnergy (voiceData h')) /\
  analyserRef h' = Some createAnalyser /\ audioContextRef h' = Some ctx /\
  (forall d, frequencyDataRef h' = Some d -> List.length d = 128%nat).
Proof.
  intros Ha Hc Hd Hm. cbv zeta.
  destruct (frameCallback_unmuted store (fun _ => b) h _ ctx Ha Hc Hm)
    as (Hv & Ha' & Hc' & Hd').
  assert (Hlen : List.length
            match frequencyDataRef h with
            | Some d => d
            | None => repeat x00 (frequencyBinCount createAnalyser)
            end = 128%nat).
  { destruct (frequencyDataRef h) as [d|]; [apply Hd; reflexivity|].
    rewrite repeat_length. reflexivity. }
  rewrite Hv. change (frequencyBinCount createAnalyser) with 128%nat in *.
  destruct (analyseBands_const store
              (getByteFrequencyData createAnalyser (fun _ => b)
                 match frequencyDataRef h with
                 | Some d => d
                 | None => repeat x00 128
                 end) b (voiceData h)) as (E1 & E2 & E3 & E4).
  { intros i Hi. apply nth_getByteFrequencyData; [rewrite Hlen|]; exact Hi. }
  repeat split; try assumption.
  intros d Hd2. rewrite Hd' in Hd2. injection Hd2 as <-.
  rewrite length_getByteFrequencyData. exact Hlen.
Qed.

Lemma listening_voice :
  voiceData Scenario.listening = mkVoice 0.025 0.025 0.025 0.025.
Proof.
  unfold Scenario.listening.
  destruct (frameCallback_const debugStore xff Scenario.started (mkCtx running))
    as (E1 & E2 & E3 & E4 & _); try reflexivity.
  { rewrite started_state. simpl. discriminate. }
  cbv zeta in *.
  change (IZR (Z.of_N (Byte.to_N xff))) with 255 in *.
  replace (255 / 255) with 1 in * by (field; lra).
  unfold Scenario.loud.
  destruct (voiceData (frameCallback debugStore (fun _ => xff) Scenario.started))
    as [a l m hh]. simpl in *.
  rewrite (gated_full 0.08) in E1, E2, E3 by lra.
  rewrite target_full in E1, E2, E3 by lra.
  assert (F : clamp01 (follow 1 0) = 0.025).
  { destruct (follow_rise 0) as [F _]; lra. }
  rewrite F in E1, E2, E3.
  subst l m hh. f_equal. rewrite E4.
  unfold JS.max3, Rmax.
  destruct (Rle_dec 0.025 0.025); destruct (Rle_dec 0.025 0.025); reflexivity.
Qed.

(** A run of unmuted ticks on a constant spectrum smooths each band
    with one and the same step. *)
Lemma ticks_const store (b : byte) (n : nat) : forall h ctx,
  analyserRef h = Some createAnalyser -> audioContextRef h = Some ctx ->
  (forall d, frequencyDataRef h = Some d -> List.length d = 128%nat) ->
  isMuted store = false ->
  let raw := IZR (Z.of_N (Byte.to_N b)) / 255 in
  let band w cur :=
    clamp01 (follow (target (gated raw (noiseGate store))
                            (sensitivity store) w) cur) in
  let v := voiceData (ticks (repeat (store, fun _ : nat => b) n) h) in
  lowEnergy v = Nat.iter n (band 1.0) (lowEnergy (voiceData h)) /\
  midEnergy v = Nat.iter n (band 1.2) (midEnergy (voiceData h)) /\
  highEnergy v = Nat.iter n (band 0.8) (highEnergy (voiceData h)).
Proof.
  induction n as [|n IH]; intros h ctx Ha Hc Hd Hm; cbv zeta.
  - simpl. auto.
  - destruct (frameCallback_const store b h ctx Ha Hc Hd Hm)
      as (E1 & E2 & E3 & _ & Ha' & Hc' & Hd').
    destruct (IH _ ctx Ha' Hc' Hd' Hm) as (I1 & I2 & I3).
    cbv zeta in *. cbn [repeat ticks].
    rewrite I1, I2, I3, E1, E2, E3, !Nat.iter_succ_r. auto.
Qed.

Lemma iter_ext {A : Type} (f g : A -> A) (n : nat) (x : A) :
  (forall y, f y = g y) -> Nat.iter n f x = Nat.iter n g x.
Proof.
  intros H. induction n as [|n IH]; simpl; [reflexivity|].
  rewrite IH. apply H.
Qed.

(** C4.  Every band of a tick is smoothed by the same follower, with
    attack 0.025 and release 0.992: a target above the current value is
    approached by 0.025 of the distance, otherwise the value is multiplied
    by 0.992.  Under a target held at 1 from the value 0 each tick raises
    the value by 0.025 * (1 - value), strictly, never reaching 1; under a
    target held at 0 from the value 1 the value after n ticks is 0.992^n,
    each tick multiplying by 0.992, and it stays positive.  A started
    session on a full-scale spectrum, and a session at its peak on a
    silent one, run through exactly these two sequences. *)
Theorem C4_envelope_follower :
  (forall store freqData n v,
     let v' := analyseBands store freqData n v in
     let band lo hi len w cur :=
       clamp01 (follow (target (gated (bandSum freqData lo hi / (len * 255))
                                      (noiseGate store))
                               (sensitivity store) w) cur) in
     lowEnergy v' = band 0%nat 6%nat 6 1.0 (lowEnergy v) /\
     midEnergy v' = band 6%nat 50%nat 44 1.2 (midEnergy v) /\
     highEnergy v' = band 50%nat n (INR n - 50) 0.8 (highEnergy v)) /\
  attack = 0.025 /\ release = 0.992 /\
  (forall t c, t > c -> follow t c = c + (t - c) * 0.025) /\
  (forall t c, ~ t > c -> follow t c = c * 0.992) /\
  (forall n,
     let x := Nat.iter n (fun c => clamp01 (follow 1 c)) 0 in
     let x' := Nat.iter (S n) (fun c => clamp01 (follow 1 c)) 0 in
     x' = x + 0.025 * (1 - x) /\ x < x' /\ x' < 1) /\
  (forall n,
     let y := Nat.iter n (fun c => clamp01 (follow 0 c)) 1 in
     let y' := Nat.iter (S n) (fun c => clamp01 (follow 0 c)) 1 in
     y = 0.992 ^ n /\ y' = 0.992 * y /\ 0 < y' < y) /\
  (forall n,
     let v := voiceData (ticks (repeat (debugStore, Scenario.loud) n)
                               Scenario.started) in
     let x := Nat.iter n (fun c => clamp01 (follow 1 c)) 0 in
     lowEnergy v = x /\ midEnergy v = x /\ highEnergy v = x) /\
  (forall n,
     let v := voiceData (ticks (repeat (debugStore, Scenario.silent) n)
                               Scenario.peaked) in
     lowEnergy v = 0.992 ^ n /\ midEnergy v = 0.992 ^ n /\
     highEnergy v = 0.992 ^ n).
Proof.
  split; [intros; repeat split; reflexivity|].
  split; [reflexivity|]. split; [reflexivity|].
  split; [|split; [|split; [|split; [|split]]]].
  - intros t c H. unfold follow, attack. destruct (Rgt_dec t c); [reflexivity|contradiction].
  - intros t c H. unfold follow, release. destruct (Rgt_dec t c); [contradiction|reflexivity].
  - intros n. cbv zeta. simpl.
    destruct (follow_rise _ (rise_range n)) as [E H]. lra.
  - intros n. cbv zeta. rewrite !fall_closed. simpl.
    assert (0 < 0.992 ^ n) by (apply pow_lt; lra).
    repeat split; lra.
  - intros n. cbv zeta.
    destruct (ticks_const debugStore xff n Scenario.started (mkCtx running))
      as (E1 & E2 & E3); try reflexivity.
    { rewrite started_state. simpl. discriminate. }
    cbv zeta in *. unfold Scenario.loud. rewrite E1, E2, E3.
    change (IZR (Z.of_N (Byte.to_N xff))) with 255.
    replace (255 / 255) with 1 by (field; lra).
    simpl. rewrite (gated_full 0.08) by lra.
    repeat split; apply iter_ext; intros y;
      rewrite target_full by lra; reflexivity.
  - intros n. cbv zeta.
    destruct (ticks_const debugStore x00 n Scenario.peaked (mkCtx running))
      as (E1 & E2 & E3); try reflexivity.
    { unfold Scenario.peaked. rewrite started_state. simpl. discriminate. }
    cbv zeta in *. unfold Scenario.silent. rewrite E1, E2, E3.
    change (IZR (Z.of_N (Byte.to_N x00))) with 0.
    replace (0 / 255) with 0 by (field; lra).
    simpl. rewrite (gated_silence 0.08) by lra.
    rewrite <- !(fall_closed n).
    repeat split; apply iter_ext; intros y;
      rewrite target_silence; reflexivity.
Qed.

Lemma C4_envelope_follower_witness :
  follow 1 0 = 0 + (1 - 0) * 0.025 /\ follow 0 1 = 1 * 0.992.
Proof.
  destruct C4_envelope_follower as (_ & _ & _ & Hup & Hdown & _).
  split; [apply Hup; lra|apply Hdown; lra].
Defined.

(** *** A start the platform refuses *)

(** C2 (as amended).  When the platform refuses the device,
    [startListening] answers [false]; by then it has put the zero record
    in place of the voice data, stopped the tracks of the stream it held
    and cancelled the tick it had pending.  The audio context, the
    analyser, the source node, the frequency buffer, the listening flag,
    the device list and the selection are as they were. *)
Theorem C2_refused_start_state (p : Platform) (device : option string)
    (h : Hook) :
  getUserMedia p (deviceConstraint device) = None ->
  let r := startListening p device h in
  fst r = false /\
  voiceData (snd r) = EMPTY_VOICE_DATA /\
  streamRef (snd r) = option_map stopTracks (streamRef h) /\
  scheduled (snd r) =
    (if (rafIdRef h =? 0)%nat then scheduled h
     else remove Nat.eq_dec (rafIdRef h) (scheduled h)) /\
  (rafIdRef h <> 0%nat -> ~ In (rafIdRef h) (scheduled (snd r))) /\
  audioContextRef (snd r) = audioContextRef h /\
  analyserRef (snd r) = analyserRef h /\
  sourceRef (snd r) = sourceRef h /\
  frequencyDataRef (snd r) = frequencyDataRef h /\
  rafIdRef (snd r) = rafIdRef h /\
  isListening (snd r) = isListening h /\
  currentMic (snd r) = currentMic h /\
  availableMics (snd r) = availableMics h /\
  selectedDeviceId (snd r) = selectedDeviceId h.
Proof.
  intros Hdeny. cbv zeta. unfold startListening. rewrite Hdeny.
  destruct h as [v c a s st r fd l cm am sel sch nh]; simpl.
  destruct st as [stream|]; simpl; destruct (Nat.eqb_spec r 0) as [->|Hr];
    simpl; repeat split; try reflexivity; try (intros H; congruence);
    intros _; apply remove_In.
Qed.

Lemma C2_refused_start_state_witness :
  fst (startListening Scenario.denying (Some "usb"%string)
         Scenario.listening) = false /\
  voiceData (snd (startListening Scenario.denying (Some "usb"%string)
                    Scenario.listening)) = EMPTY_VOICE_DATA.
Proof.
  destruct (C2_refused_start_state Scenario.denying (Some "usb"%string)
              Scenario.listening eq_refl) as (H1 & H2 & _).
  split; [exact H1|exact H2].
Defined.

(** C2 (as stated) fails: a session that is listening, with a live
    stream, a pending tick and a non-zero voice record, asks for another
    device and is refused.  The call answers [false], and the voice
    record, the stream and the pending tick are all different from what
    they were. *)
Lemma C2_refused_switch_counterexample :
  reachable Scenario.listening /\
  getUserMedia Scenario.denying (deviceConstraint (Some "usb"%string)) = None /\
  fst (startListening Scenario.denying (Some "usb"%string)
         Scenario.listening) = false /\
  voiceData (snd (startListening Scenario.denying (Some "usb"%string)
                    Scenario.listening))
    <> voiceData Scenario.listening /\
  streamRef (snd (startListening Scenario.denying (Some "usb"%string)
                    Scenario.listening))
    <> streamRef Scenario.listening /\
  scheduled (snd (startListening Scenario.denying (Some "usb"%string)
                    Scenario.listening))
    <> scheduled Scenario.listening.
Proof.
  split; [apply reachable_listening|].
  split; [reflexivity|]. split; [reflexivity|].
  split; [|split].
  - rewrite voiceData_startListening, listening_voice.
    unfold EMPTY_VOICE_DATA. intros H. injection H as H _ _ _. lra.
  - cbn. discriminate.
  - cbn. discriminate.
Qed.

End AnalyserFacts.

(** ** The surface animator *)
Section BlobFacts.
Import Store Analyser Material Blob.

(** *** One smoothing step *)

Lemma lr_cases (cur tgt : R) : lr cur tgt = 0.02 \/ lr cur tgt = 0.008.
Proof.
  unfold lr, attackRate, releaseRate. destruct (Rgt_dec tgt cur); auto.
Qed.

Lemma approach_between (lo hi cur tgt : R) :
  lo <= cur <= hi -> lo <= tgt <= hi -> lo <= approach cur tgt <= hi.
Proof.
  intros Hc Ht. unfold approach.
  destruct (lr_cases cur tgt) as [-> | ->]; lra.
Qed.


Lemma breathe_between (cur amp : R) :
  0 <= amp <= 1 -> 0.64 <= cur <= 0.96 -> 0.64 <= breathe cur amp <= 0.96.
Proof.
  intros Ha Hc. unfold breathe, SCALE_IDLE, SCALE_ACTIVE.
  destruct (Rgt_dec _ cur); lra.
Qed.


(** What a frame does to the smoothed parameters, field by field. *)
Lemma useFrame_shape (f : Frame) (c : Component) :
  let u := uniforms (material c) in
  let u' := uniforms (material (useFrame f c)) in
  let a := animationSpeed (store f) in
  let v := voice f in
  distort u' = approach (distort u) (0.6 + (0.70 - 0.6) * amplitude v) /\
  speed u' = approach (speed u) ((0.5 + (0.58 - 0.5) * amplitude v) * a) /\
  surfaceDistort u' =
    approach (surfaceDistort u)
             (1.4 + (1.7 - 1.4) * Rmax (midEnergy v) (highEnergy v)) /\
  surfaceSpeed u' =
    approach (surfaceSpeed u) ((0.4 + (0.48 - 0.4) * amplitude v) * a) /\
  currentScale (useFrame f c) = breathe (currentScale c) (amplitude v).
Proof. repeat split; reflexivity. Qed.

(** What a frame does to the two clocks. *)
Lemma useFrame_clocks (f : Frame) (c : Component) :
  let u := uniforms (material c) in
  let u' := uniforms (material (useFrame f c)) in
  let dt := Rmin (delta f) 0.1 in
  time u' = time u + dt * animationSpeed (store f) * speed u /\
  surfaceTime u' =
    surfaceTime u + dt * animationSpeed (store f) * surfaceSpeed u.
Proof. split; reflexivity. Qed.

(** *** Bounds of the smoothed parameters *)

Lemma shape_bounds_step (f : Frame) (c : Component) :
  voice_in_range (voice f) ->
  0.6 <= distort (uniforms (material c)) <= 0.70 /\
  1.4 <= surfaceDistort (uniforms (material c)) <= 1.7 /\
  0.64 <= currentScale c <= 0.96 ->
  0.6 <= distort (uniforms (material (useFrame f c))) <= 0.70 /\
  1.4 <= surfaceDistort (uniforms (material (useFrame f c))) <= 1.7 /\
  0.64 <= currentScale (useFrame f c) <= 0.96.
Proof.
  intros (Ha & _ & Hm & Hh) (Hd & Hs & Hc).
  destruct (useFrame_shape f c) as (E1 & _ & E3 & _ & E5).
  cbv zeta in *. rewrite E1, E3, E5.
  assert (Hmax : 0 <= Rmax (midEnergy (voice f)) (highEnergy (voice f)) <= 1).
  { unfold Rmax. destruct (Rle_dec _ _); lra. }
  split; [|split].
  - apply approach_between; lra.
  - apply approach_between; lra.
  - apply breathe_between; lra.
Qed.

Lemma shape_bounds_frames (fs : list Frame) : forall c : Component,
  Forall (fun f => voice_in_range (voice f)) fs ->
  0.6 <= distort (uniforms (material c)) <= 0.70 /\
  1.4 <= surfaceDistort (uniforms (material c)) <= 1.7 /\
  0.64 <= currentScale c <= 0.96 ->
  0.6 <= distort (uniforms (material (frames fs c))) <= 0.70 /\
  1.4 <= surfaceDistort (uniforms (material (frames fs c))) <= 1.7 /\
  0.64 <= currentScale (frames fs c) <= 0.96.
Proof.
  induction fs as [|f fs IH]; intros c Hv Hc; [exact Hc|].
  inversion Hv as [|? ? Hf Hfs]; subst. simpl.
  apply IH; [exact Hfs|]. apply shape_bounds_step; assumption.
Qed.

(** C10.  From the defaults, after any run of frames whose voice records
    have their fields in [0,1], the smoothed distort lies in [0.6, 0.70],
    the smoothed surfaceDistort in [1.4, 1.7] and the breathing scale in
    [0.64, 0.96]. *)
Theorem C10_shape_parameters_bounded (fs : list Frame) :
  Forall (fun f => voice_in_range (voice f)) fs ->
  let c := frames fs mounted in
  0.6 <= distort (uniforms (material c)) <= 0.70 /\
  1.4 <= surfaceDistort (uniforms (material c)) <= 1.7 /\
  0.64 <= currentScale c <= 0.96.
Proof.
  intros Hv. apply shape_bounds_frames; [exact Hv|].
  unfold mounted, SCALE_IDLE; simpl. lra.
Qed.

Lemma C10_shape_parameters_bounded_witness :
  0.6 <= distort (uniforms (material
           (frames [Scenario.peakFrame; Scenario.silentFrame] mounted)))
      <= 0.70.
Proof.
  apply (C10_shape_parameters_bounded
           [Scenario.peakFrame; Scenario.silentFrame]).
  repeat constructor; simpl; lra.
Defined.

(** *** Convergence in silence *)





(** *** The two clocks *)

Lemma speed_bounds_step (f : Frame) (c : Component) :
  valid_frame f ->
  0.05 <= speed (uniforms (material c)) <= 2.9 /\
  0.04 <= surfaceSpeed (uniforms (material c)) <= 2.4 ->
  0.05 <= speed (uniforms (material (useFrame f c))) <= 2.9 /\
  0.04 <= surfaceSpeed (uniforms (material (useFrame f c))) <= 2.4.
Proof.
  intros (_ & (_ & _ & Hs) & (Ha & _)) (H1 & H2).
  destruct (useFrame_shape f c) as (_ & E2 & _ & E4 & _).
  cbv zeta in *. rewrite E2, E4.
  split; apply approach_between; try assumption; nra.
Qed.

Lemma speed_bounds_frames (fs : list Frame) : forall c : Component,
  Forall valid_frame fs ->
  0.05 <= speed (uniforms (material c)) <= 2.9 /\
  0.04 <= surfaceSpeed (uniforms (material c)) <= 2.4 ->
  0.05 <= speed (uniforms (material (frames fs c))) <= 2.9 /\
  0.04 <= surfaceSpeed (uniforms (material (frames fs c))) <= 2.4.
Proof.
  induction fs as [|f fs IH]; intros c Hv Hc; [exact Hc|].
  inversion Hv as [|? ? Hf Hfs]; subst. simpl.
  apply IH; [exact Hfs|]. apply speed_bounds_step; assumption.
Qed.

Lemma speed_bounds_mounted :
  0.05 <= speed (uniforms (material mounted)) <= 2.9 /\
  0.04 <= surfaceSpeed (uniforms (material mounted)) <= 2.4.
Proof. simpl. lra. Qed.

(** A valid frame whose delta is at least [d] moves each clock forward
    by at least [Rmin d 0.1 * 0.004]. *)
Lemma clock_step_growth (d : R) (f : Frame) (c : Component) :
  0 <= d -> valid_frame f -> d <= delta f ->
  0.05 <= speed (uniforms (material c)) <= 2.9 /\
  0.04 <= surfaceSpeed (uniforms (material c)) <= 2.4 ->
  time (uniforms (material c)) + Rmin d 0.1 * 0.004
    <= time (uniforms (material (useFrame f c))) /\
  surfaceTime (uniforms (material c)) + Rmin d 0.1 * 0.004
    <= surfaceTime (uniforms (material (useFrame f c))).
Proof.
  intros Hd (Hdelta & (_ & _ & Hs) & _) Hle (H1 & H2).
  destruct (useFrame_clocks f c) as (E1 & E2).
  cbv zeta in *. rewrite E1, E2.
  assert (Hm : 0 <= Rmin d 0.1 <= Rmin (delta f) 0.1).
  { unfold Rmin. destruct (Rle_dec d 0.1); destruct (Rle_dec (delta f) 0.1); lra. }
  set (m := Rmin d 0.1) in *. set (dt := Rmin (delta f) 0.1) in *.
  assert (0.1 * m <= dt * animationSpeed (store f)) by nra.
  assert (0 <= dt * animationSpeed (store f)) by nra.
  split; nra.
Qed.

Lemma clock_frames_growth (d : R) (fs : list Frame) : forall c : Component,
  0 <= d -> Forall valid_frame fs -> Forall (fun f => d <= delta f) fs ->
  0.05 <= speed (uniforms (material c)) <= 2.9 /\
  0.04 <= surfaceSpeed (uniforms (material c)) <= 2.4 ->
  time (uniforms (material c)) + INR (List.length fs) * (Rmin d 0.1 * 0.004)
    <= time (uniforms (material (frames fs c))) /\
  surfaceTime (uniforms (material c))
    + INR (List.length fs) * (Rmin d 0.1 * 0.004)
    <= surfaceTime (uniforms (material (frames fs c))).
Proof.
  induction fs as [|f fs IH]; intros c Hd Hv Hle Hc.
  - simpl. lra.
  - inversion Hv as [|? ? Hf Hfs]; inversion Hle as [|? ? Hl Hls]; subst.
    destruct (clock_step_growth d f c Hd Hf Hl Hc) as (S1 & S2).
    destruct (IH (useFrame f c) Hd Hfs Hls (speed_bounds_step f c Hf Hc))
      as (I1 & I2).
    change (List.length (f :: fs)) with (S (List.length fs)).
    rewrite S_INR. cbn [frames]. lra.
Qed.

(** C7.  A frame adds dt * speed * animationSpeed to the animation clock
    and dt * surfaceSpeed * animationSpeed to the surface clock, dt being
    the frame delta clamped to 0.1.  Along any run of valid frames from
    the mounted component neither clock ever decreases, and with the
    frame delta bounded away from 0 both exceed any bound: nothing wraps
    or resets them. *)
Theorem C7_clock_advance :
  (forall (f : Frame) (c : Component),
     let u := uniforms (material c) in
     let u' := uniforms (material (useFrame f c)) in
     let dt := Rmin (delta f) 0.1 in
     time u' = time u + dt * speed u * animationSpeed (store f) /\
     surfaceTime u' =
       surfaceTime u + dt * surfaceSpeed u * animationSpeed (store f)) /\
  (forall (fs : list Frame) (f : Frame),
     Forall valid_frame fs -> valid_frame f ->
     let u := uniforms (material (frames fs mounted)) in
     let u' := uniforms (material (useFrame f (frames fs mounted))) in
     time u <= time u' /\ surfaceTime u <= surfaceTime u') /\
  (forall d B : R, 0 < d ->
     exists N : nat, forall fs : list Frame,
       Forall valid_frame fs -> Forall (fun f => d <= delta f) fs ->
       (N <= List.length fs)%nat ->
       let u := uniforms (material (frames fs mounted)) in
       B < time u /\ B < surfaceTime u).
Proof.
  split; [|split].
  - intros f c. destruct (useFrame_clocks f c) as (E1 & E2).
    cbv zeta in *. rewrite E1, E2. split; ring.
  - intros fs f Hfs Hf.
    pose proof (speed_bounds_frames fs mounted Hfs speed_bounds_mounted) as Hc.
    pose proof Hf as (Hdelta & _).
    destruct (clock_step_growth 0 f (frames fs mounted)
                (Rle_refl 0) Hf Hdelta Hc) as (S1 & S2).
    cbv zeta.
    replace (Rmin 0 0.1) with 0 in S1, S2
      by (unfold Rmin; destruct (Rle_dec 0 0.1); lra).
    lra.
  - intros d B Hd.
    assert (Hk : Rmin d 0.1 * 0.004 > 0).
    { unfold Rmin. destruct (Rle_dec d 0.1); lra. }
    destruct (INR_archimed _ B Hk) as [N HN].
    exists N. intros fs Hv Hle Hlen.
    destruct (clock_frames_growth d fs mounted (Rlt_le _ _ Hd) Hv Hle
                speed_bounds_mounted) as (G1 & G2).
    simpl in G1, G2. cbv zeta.
    assert (INR N <= INR (List.length fs)) by (apply le_INR; exact Hlen).
    assert (INR N * (Rmin d 0.1 * 0.004)
            <= INR (List.length fs) * (Rmin d 0.1 * 0.004)) by nra.
    lra.
Qed.

Lemma C7_clock_advance_witness :
  time (uniforms (material (frames [Scenario.peakFrame] mounted)))
  <= time (uniforms (material
             (useFrame Scenario.silentFrame
                (frames [Scenario.peakFrame] mounted)))).
Proof.
  destruct C7_clock_advance as (_ & Hmono & _).
  apply (Hmono [Scenario.peakFrame] Scenario.silentFrame).
  - repeat constructor; simpl; lra.
  - repeat split; simpl; lra.
Defined.

(** *** The pointer push *)

Lemma useFrame_miss (f : Frame) (c : Component) (me : Mesh) :
  meshRef c = Some me -> hit f = None ->
  smoothedStrength (useFrame f c) =
    (if (S (raycastFrame c) mod 3 =? 0)%nat
     then smoothedStrength c * 0.92 else smoothedStrength c) /\
  raycastFrame (useFrame f c) = S (raycastFrame c) /\
  exists me', meshRef (useFrame f c) = Some me'.
Proof.
  intros Hm Hh. unfold useFrame. rewrite Hm, Hh. simpl.
  split; [|split; [reflexivity|eexists; reflexivity]].
  destruct (_ =? 0)%nat; reflexivity.
Qed.

Lemma frames_miss (fs : list Frame) : forall (c : Component) (me : Mesh),
  meshRef c = Some me -> Forall (fun f => hit f = None) fs ->
  smoothedStrength (frames fs c) =
    smoothedStrength c * 0.92 ^ evaluations (raycastFrame c) (List.length fs) /\
  raycastFrame (frames fs c) = (raycastFrame c + List.length fs)%nat /\
  exists me', meshRef (frames fs c) = Some me'.
Proof.
  induction fs as [|f fs IH]; intros c me Hm Hh.
  - simpl. unfold evaluations.
    replace (raycastFrame c + 0)%nat with (raycastFrame c) by lia.
    rewrite Nat.sub_diag. simpl.
    split; [lra|split; [lia|exists me; exact Hm]].
  - inversion Hh as [|? ? Hf Hfs]; subst.
    destruct (useFrame_miss f c me Hm Hf) as (S1 & S2 & me1 & S3).
    destruct (IH (useFrame f c) me1 S3 Hfs) as (I1 & I2 & I3).
    cbn [frames List.length]. rewrite I1, I2, S1, S2.
    split; [|split; [lia|exact I3]].
    unfold evaluations.
    destruct (Nat.eqb_spec (S (raycastFrame c) mod 3) 0) as [E|E].
    + replace ((raycastFrame c + S (List.length fs)) / 3 - raycastFrame c / 3)%nat
        with (S ((S (raycastFrame c) + List.length fs) / 3
                 - S (raycastFrame c) / 3)) by lia.
      simpl. lra.
    + replace ((raycastFrame c + S (List.length fs)) / 3 - raycastFrame c / 3)%nat
        with ((S (raycastFrame c) + List.length fs) / 3
              - S (raycastFrame c) / 3)%nat by lia.
      reflexivity.
Qed.

(** C8.  From a pointer strength of 0.4, while the ray keeps missing the
    mounted mesh, the strength after the frames that made N evaluations
    (one every third frame) is 0.4 * 0.92^N; it is positive, a further
    frame never raises it, and a further evaluated frame lowers it
    strictly, to 0.92 of its value. *)
Theorem C8_pointer_miss_decay (c : Component) (me : Mesh)
    (fs : list Frame) (N : nat) :
  meshRef c = Some me ->
  smoothedStrength c = 0.4 ->
  Forall (fun f => hit f = None) fs ->
  evaluations (raycastFrame c) (List.length fs) = N ->
  let s := smoothedStrength (frames fs c) in
  s = 0.4 * 0.92 ^ N /\
  0 < s /\
  (forall f : Frame, hit f = None ->
     let s' := smoothedStrength (useFrame f (frames fs c)) in
     0 < s' <= s /\
     (evaluations (raycastFrame c) (S (List.length fs)) = S N ->
      s' = 0.4 * 0.92 ^ S N /\ s' < s)).
Proof.
  intros Hm Hs Hh HN.
  destruct (frames_miss fs c me Hm Hh) as (E & Er & me' & Em).
  rewrite Hs, HN in E. cbv zeta.
  assert (Hp : 0 < 0.92 ^ N) by (apply pow_lt; lra).
  rewrite E.
  split; [reflexivity|]. split; [nra|].
  intros f Hf.
  destruct (useFrame_miss f (frames fs c) me' Em Hf) as (S1 & _).
  rewrite S1, E, Er.
  destruct (Nat.eqb_spec (S (raycastFrame c + List.length fs) mod 3) 0) as [Z|Z].
  - split; [nra|]. intros _. simpl. nra.
  - split; [nra|]. intros HS. exfalso.
    unfold evaluations in HN, HS. lia.
Qed.

Lemma evaluations_aligned (r N : nat) :
  (r mod 3 = 0)%nat -> evaluations r (3 * N) = N.
Proof. intros Hr. unfold evaluations. lia. Qed.

Lemma C8_pointer_miss_decay_witness :
  smoothedStrength
    (frames [Scenario.silentFrame; Scenario.silentFrame; Scenario.silentFrame;
             Scenario.silentFrame; Scenario.silentFrame; Scenario.silentFrame]
       Scenario.pointing)
  = 0.4 * 0.92 ^ 2.
Proof.
  refine (proj1 (C8_pointer_miss_decay Scenario.pointing
                   {| scale := mkVec3 1 1 1; rotationX := 0; rotationY := 0 |}
                   _ 2 eq_refl eq_refl _ _)).
  - repeat constructor.
  - apply (evaluations_aligned 300 2). reflexivity.
Defined.

End BlobFacts.

(** ** The displacement field *)
Section ShaderFacts.
Import Material Shader.





End ShaderFacts.

(* ================================================================== *)
(** * Further properties of the code *)
(* ================================================================== *)

(** ** Lifecycle of a session *)
Section LifecycleFacts.
Import Store Analyser.

Lemma cancel_absent (id : nat) (h : Hook) :
  ~ In id (scheduled h) -> cancelAnimationFrame id h = h.
Proof.
  intros Hn. destruct h as [v c a s st r fd l cm am sel sch nh].
  unfold cancelAnimationFrame; simpl in *.
  rewrite notin_remove by exact Hn. reflexivity.
Qed.

Lemma stop_not_pending (h : Hook) :
  ~ In (rafIdRef (stopListening h)) (scheduled (stopListening h)).
Proof.
  destruct h as [v c a s st r fd l cm am sel sch nh].
  unfold stopListening, cancelAnimationFrame; simpl. apply remove_In.
Qed.

(** X1.  Stopping clears the graph, the stream, the buffer and the voice
    record and leaves the tick it cancelled out of the pending ones;
    stopping a second time changes nothing, and stopping a hook that was
    never started changes nothing either. *)
Theorem stopListening_idempotent (h : Hook) :
  stopListening (stopListening h) = stopListening h /\
  stopListening initialHook = initialHook /\
  voiceData (stopListening h) = EMPTY_VOICE_DATA /\
  audioContextRef (stopListening h) = None /\
  analyserRef (stopListening h) = None /\
  sourceRef (stopListening h) = None /\
  streamRef (stopListening h) = None /\
  frequencyDataRef (stopListening h) = None /\
  isListening (stopListening h) = false /\
  ~ In (rafIdRef h) (scheduled (stopListening h)).
Proof.
  destruct h as [v c a s st r fd l cm am sel sch nh].
  unfold stopListening, cancelAnimationFrame; simpl.
  rewrite remove_remove_eq.
  repeat split; try reflexivity. apply remove_In.
Qed.

(** X2.  Once stopped, a callback that still fires finds no analyser: it
    neither touches the state nor asks for another frame, however often
    it runs. *)
Theorem ticks_after_stop (inputs : list (DebugStore * (nat -> byte)))
    (h : Hook) :
  ticks inputs (stopListening h) = stopListening h.
Proof.
  induction inputs as [|[store spectrum] rest IH]; [reflexivity|].
  cbn [ticks].
  assert (E : frameCallback store spectrum (stopListening h) = stopListening h).
  { unfold frameCallback. rewrite cancel_absent.
    - reflexivity.
    - apply stop_not_pending. }
  rewrite E. exact IH.
Qed.

(** *** The phases of a start *)

(** [startListening] is its phases in sequence, with the two places
    where the platform can make it fail. *)
Lemma startListening_phases (p : Platform) (device : option string)
    (h : Hook) :
  startListening p device h =
  match getUserMedia p (deviceConstraint device) with
  | None => (false, teardown h)
  | Some stream =>
      let h2 := adopt p stream (teardown h) in
      let ctx := contextFor p h2 in
      let h3 := set_graph (Some ctx) (analyserRef h2) (sourceRef h2) h2 in
      match state ctx with
      | suspended =>
          if resume p then (true, wire {| state := running |} stream h3)
          else (false, h3)
      | _ => (true, wire ctx stream h3)
      end
  end.
Proof.
  unfold startListening.
  destruct (getUserMedia p (deviceConstraint device)) as [stream|];
    [|reflexivity].
  fold (teardown h). fold (adopt p stream (teardown h)).
  fold (contextFor p (adopt p stream (teardown h))).
  cbv zeta.
  destruct (state (contextFor p (adopt p stream (teardown h))));
    try reflexivity.
  destruct (resume p); reflexivity.
Qed.

(** *** Pending ticks *)

Lemma teardown_fields (h : Hook) :
  voiceData (teardown h) = EMPTY_VOICE_DATA /\
  streamRef (teardown h) = option_map stopTracks (streamRef h) /\
  scheduled (teardown h) =
    (if (rafIdRef h =? 0)%nat then scheduled h
     else remove Nat.eq_dec (rafIdRef h) (scheduled h)) /\
  rafIdRef (teardown h) = rafIdRef h /\
  nextHandle (teardown h) = nextHandle h /\
  audioContextRef (teardown h) = audioContextRef h /\
  analyserRef (teardown h) = analyserRef h /\
  sourceRef (teardown h) = sourceRef h /\
  frequencyDataRef (teardown h) = frequencyDataRef h /\
  isListening (teardown h) = isListening h.
Proof.
  destruct h as [v c a s st r fd l cm am sel sch nh].
  unfold teardown. destruct st; simpl; destruct (r =? 0)%nat; simpl;
    repeat split; reflexivity.
Qed.

Lemma adopt_fields (p : Platform) (stream : MediaStream) (h : Hook) :
  voiceData (adopt p stream h) = voiceData h /\
  streamRef (adopt p stream h) = Some stream /\
  currentMic (adopt p stream h) =
    orString (trackLabel stream) "Unknown Microphone" /\
  scheduled (adopt p stream h) = scheduled h /\
  rafIdRef (adopt p stream h) = rafIdRef h /\
  nextHandle (adopt p stream h) = nextHandle h /\
  audioContextRef (adopt p stream h) = audioContextRef h /\
  analyserRef (adopt p stream h) = analyserRef h /\
  sourceRef (adopt p stream h) = sourceRef h /\
  frequencyDataRef (adopt p stream h) = frequencyDataRef h /\
  isListening (adopt p stream h) = isListening h.
Proof.
  destruct h as [v c a s st r fd l cm am sel sch nh].
  unfold adopt, loadMicrophones. destruct (enumerateDevices p); simpl;
    repeat split; reflexivity.
Qed.

Lemma wire_fields (ctx : AudioContext) (stream : MediaStream) (h : Hook) :
  voiceData (wire ctx stream h) = voiceData h /\
  streamRef (wire ctx stream h) = streamRef h /\
  currentMic (wire ctx stream h) = currentMic h /\
  scheduled (wire ctx stream h) = nextHandle h :: scheduled h /\
  rafIdRef (wire ctx stream h) = nextHandle h /\
  nextHandle (wire ctx stream h) = S (nextHandle h) /\
  audioContextRef (wire ctx stream h) = Some ctx /\
  analyserRef (wire ctx stream h) =
    Some match analyserRef h with
         | Some a => a
         | None => createAnalyser
         end /\
  sourceRef (wire ctx stream h) = Some (mkSource (streamDevice stream) true) /\
  frequencyDataRef (wire ctx stream h) = frequencyDataRef h /\
  isListening (wire ctx stream h) = true.
Proof.
  destruct h as [v c a s st r fd l cm am sel sch nh].
  unfold wire; simpl. repeat split; reflexivity.
Qed.

(** The state a start ends in is a teardown, or a teardown and an
    adoption with the context stored, or all of that wired up. *)
Lemma startListening_shape (p : Platform) (device : option string)
    (h : Hook) :
  (getUserMedia p (deviceConstraint device) = None /\
   startListening p device h = (false, teardown h)) \/
  (exists stream ctx,
     getUserMedia p (deviceConstraint device) = Some stream /\
     let h2 := adopt p stream (teardown h) in
     let h3 := set_graph (Some ctx) (analyserRef h2) (sourceRef h2) h2 in
     (resume p = false /\ startListening p device h = (false, h3)) \/
     (exists ctx', startListening p device h = (true, wire ctx' stream h3))).
Proof.
  rewrite startListening_phases.
  destruct (getUserMedia p (deviceConstraint device)) as [stream|];
    [|left; split; reflexivity].
  right. exists stream, (contextFor p (adopt p stream (teardown h))).
  split; [reflexivity|]. cbv zeta.
  destruct (state (contextFor p (adopt p stream (teardown h)))).
  - right. eexists. reflexivity.
  - destruct (resume p).
    + right. eexists. reflexivity.
    + left. split; reflexivity.
  - right. eexists. reflexivity.
Qed.





(** *** What a start leaves *)

(** X4.  Whatever the outcome, a start leaves the zero voice record.  It
    cannot succeed without a stream from the platform, and succeeds
    whenever the platform grants one and resumes the context.  After a
    success the hook holds that stream and a connected source on its
    device, shows the track's label (or "Unknown Microphone"), is
    listening, keeps the analyser it had or the 256-point one, and its
    first tick is pending. *)
Theorem startListening_outcome (p : Platform) (device : option string)
    (h : Hook) :
  let r := startListening p device h in
  voiceData (snd r) = EMPTY_VOICE_DATA /\
  (forall stream, getUserMedia p (deviceConstraint device) = Some stream ->
     resume p = true -> fst r = true) /\
  (fst r = true ->
     exists stream,
       getUserMedia p (deviceConstraint device) = Some stream /\
       streamRef (snd r) = Some stream /\
       sourceRef (snd r) = Some (mkSource (streamDevice stream) true) /\
       currentMic (snd r) =
         orString (trackLabel stream) "Unknown Microphone" /\
       isListening (snd r) = true /\
       analyserRef (snd r) =
         Some match analyserRef h with
              | Some a => a
              | None => createAnalyser
              end /\
       audioContextRef (snd r) <> None /\
       In (rafIdRef (snd r)) (scheduled (snd r))).
Proof.
  cbv zeta. split; [apply voiceData_startListening|].
  destruct (startListening_shape p device h)
    as [[Hg E] | (stream & ctx & Hg & [[Hres E] | [ctx' E]])];
    cbv zeta in E; rewrite E; cbn [fst snd].
  - split; [intros stream Hs _; congruence|discriminate].
  - split; [intros stream' _ Hr; congruence|discriminate].
  - split; [reflexivity|]. intros _. exists stream.
    match goal with
    | |- context [wire ctx' stream ?h3] =>
        destruct (wire_fields ctx' stream h3)
          as (_ & W2 & W3 & W4 & W5 & _ & W7 & W8 & W9 & _ & W11);
        rewrite W2, W3, W4, W5, W7, W8, W9, W11
    end.
    destruct (adopt_fields p stream (teardown h))
      as (_ & A2 & A3 & _ & _ & _ & _ & A8 & _).
    destruct (teardown_fields h) as (_ & _ & _ & _ & _ & _ & T7 & _).
    cbn [set_graph streamRef currentMic analyserRef].
    rewrite A2, A3, A8, T7.
    split; [exact Hg|].
    repeat (split; [reflexivity|]).
    split; [discriminate|left; reflexivity].
Qed.

Lemma startListening_outcome_witness :
  fst (startListening Scenario.granting None initialHook) = true.
Proof.
  destruct (startListening_outcome Scenario.granting None initialHook)
    as (_ & Hsuff & _).
  apply (Hsuff (mkStream "mic" "Built-in" true)); reflexivity.
Defined.

(** *** The frequency buffer *)

Lemma startListening_analyser (p : Platform) (device : option string)
    (h : Hook) :
  let r := startListening p device h in
  frequencyDataRef (snd r) = frequencyDataRef h /\
  (analyserRef (snd r) = analyserRef h \/
   (analyserRef h = None /\ analyserRef (snd r) = Some createAnalyser)).
Proof.
  cbv zeta.
  destruct (teardown_fields h) as (_ & _ & _ & _ & _ & _ & T7 & _ & T9 & _).
  destruct (startListening_shape p device h)
    as [[_ E] | (stream & ctx & _ & [[_ E] | [ctx' E]])];
    cbv zeta in E; rewrite E; cbn [fst snd].
  - split; [exact T9|left; exact T7].
  - destruct (adopt_fields p stream (teardown h))
      as (_ & _ & _ & _ & _ & _ & _ & A8 & _ & A10 & _).
    cbn [set_graph scheduled rafIdRef nextHandle analyserRef frequencyDataRef]. rewrite A8, A10, T7, T9. split; [reflexivity|left; reflexivity].
  - destruct (adopt_fields p stream (teardown h))
      as (_ & _ & _ & _ & _ & _ & _ & A8 & _ & A10 & _).
    match goal with
    | |- context [wire ctx' stream ?h3] =>
        destruct (wire_fields ctx' stream h3)
          as (_ & _ & _ & _ & _ & _ & _ & W8 & _ & W10 & _);
        rewrite W8, W10
    end.
    cbn [set_graph scheduled rafIdRef nextHandle analyserRef frequencyDataRef]. rewrite A8, A10, T7, T9.
    split; [reflexivity|].
    destruct (analyserRef h); [left; reflexivity|right; split; reflexivity].
Qed.

Lemma buffer_invariant (h : Hook) :
  reachable h ->
  (analyserRef h = None \/ analyserRef h = Some createAnalyser) /\
  (forall d, frequencyDataRef h = Some d ->
     analyserRef h = Some createAnalyser /\ List.length d = 128%nat).
Proof.
  induction 1 as [|p device h _ IH|h _ IH|store spectrum h _ IH _].
  - simpl. split; [left; reflexivity|discriminate].
  - destruct IH as (Ha & Hd).
    destruct (startListening_analyser p device h) as (Ef & Ea).
    cbv zeta in *. rewrite Ef.
    destruct Ea as [Ea | [Hn Ea]]; rewrite Ea.
    + split; assumption.
    + split; [right; reflexivity|].
      intros d Hfd. destruct (Hd d Hfd) as [Hc _]. congruence.
  - simpl. split; [left; reflexivity|discriminate].
  - destruct IH as (Ha & Hd).
    unfold frameCallback, analyse.
    destruct h as [v c a s st r fd l cm am sel sch nh]; simpl in *.
    destruct a as [an|]; [|split; assumption].
    destruct c as [ctx|]; [|split; assumption].
    destruct (isMuted store); simpl; [split; assumption|].
    split; [assumption|].
    intros d Hfd. injection Hfd as <-.
    destruct Ha as [Ha|Ha]; [discriminate|]. injection Ha as ->.
    split; [reflexivity|].
    rewrite length_getByteFrequencyData.
    destruct fd as [d0|]; [apply (Hd d0 eq_refl)|].
    rewrite repeat_length. reflexivity.
Qed.

(** X5.  In every state of a session the frequency buffer, once it
    exists, belongs to the 256-point analyser and has exactly its 128
    bins: every index below [frequencyBinCount] that a tick reads is
    inside the buffer. *)
Theorem frequency_buffer_fits (h : Hook) (d : list byte) :
  reachable h -> frequencyDataRef h = Some d ->
  exists an, analyserRef h = Some an /\
    fftSize an = 256%nat /\
    List.length d = frequencyBinCount an /\
    forall i, (i < frequencyBinCount an)%nat -> (i < List.length d)%nat.
Proof.
  intros Hr Hd.
  destruct (buffer_invariant h Hr) as (_ & Hb).
  destruct (Hb d Hd) as (Ha & Hlen).
  exists createAnalyser. rewrite Hlen.
  repeat split; try assumption; try reflexivity.
  intros i Hi. exact Hi.
Qed.

Lemma frequency_buffer_fits_witness :
  exists an, analyserRef Scenario.listening = Some an /\
    fftSize an = 256%nat /\
    List.length (getByteFrequencyData createAnalyser Scenario.loud
                   (repeat x00 128)) = frequencyBinCount an /\
    forall i, (i < frequencyBinCount an)%nat ->
      (i < List.length (getByteFrequencyData createAnalyser Scenario.loud
                          (repeat x00 128)))%nat.
Proof.
  apply (frequency_buffer_fits Scenario.listening).
  - apply reachable_listening.
  - reflexivity.
Defined.

(** *** The device list *)

Lemma orString_nonempty (a b : string) :
  b <> EmptyString -> orString a b <> EmptyString.
Proof.
  intros Hb. unfold orString.
  destruct (String.eqb_spec a EmptyString); assumption.
Qed.

(** X10.  [loadMicrophones] lists exactly the audio inputs the platform
    reports, in their order, each under its own label or, when it has
    none, under a made-up label that is never empty; when the platform
    refuses to enumerate, the hook is left as it was. *)
Theorem loadMicrophones_lists_audio_inputs (p : Platform) (h : Hook) :
  (enumerateDevices p = None -> loadMicrophones p h = h) /\
  (forall devices, enumerateDevices p = Some devices ->
     map deviceId (availableMics (loadMicrophones p h)) =
       map infoId
         (filter (fun d => String.eqb (kind d) "audioinput") devices) /\
     (forall m, In m (availableMics (loadMicrophones p h)) ->
        label m <> EmptyString /\
        exists d, In d devices /\ kind d = "audioinput"%string /\
          deviceId m = infoId d /\
          (infoLabel d <> EmptyString -> label m = infoLabel d)) /\
     voiceData (loadMicrophones p h) = voiceData h /\
     streamRef (loadMicrophones p h) = streamRef h /\
     scheduled (loadMicrophones p h) = scheduled h).
Proof.
  unfold loadMicrophones. split.
  - intros ->. reflexivity.
  - intros devices ->. cbn [availableMics set_ui voiceData streamRef scheduled].
    split; [|split; [|repeat split; reflexivity]].
    + rewrite map_map. reflexivity.
    + intros m Hm. apply in_map_iff in Hm. destruct Hm as (d & <- & Hd).
      apply filter_In in Hd. destruct Hd as (Hin & Hk).
      apply String.eqb_eq in Hk. cbn [label deviceId].
      split; [apply orString_nonempty; discriminate|].
      exists d. repeat split; try assumption.
      intros Hl. unfold orString.
      destruct (String.eqb_spec (infoLabel d) EmptyString); [contradiction|reflexivity].
Qed.

Lemma loadMicrophones_lists_audio_inputs_witness :
  map deviceId (availableMics (loadMicrophones Scenario.granting initialHook))
  = ["mic"%string].
Proof.
  destruct (loadMicrophones_lists_audio_inputs Scenario.granting initialHook)
    as (_ & Hsome).
  destruct (Hsome _ eq_refl) as (Hids & _).
  exact Hids.
Defined.

End LifecycleFacts.

(** ** Levels of a tick *)
Section LevelFacts.
Import Store Analyser.

Lemma byteAt_range (d : list byte) (i : nat) : 0 <= byteAt d i <= 255.
Proof.
  unfold byteAt.
  pose proof (Byte.to_N_bounded (nth i d x00)) as Hb.
  split.
  - apply IZR_le. lia.
  - apply IZR_le. lia.
Qed.

Lemma fold_band_bound (d : list byte) (c : R) (l : list nat) :
  (forall i, In i l -> byteAt d i <= c) ->
  forall acc,
    acc <= fold_left (fun sum i => sum + byteAt d i) l acc
        <= acc + INR (List.length l) * c.
Proof.
  induction l as [|i l IH]; intros H acc.
  - simpl. lra.
  - cbn [fold_left].
    destruct (IH (fun j Hj => H j (or_intror Hj)) (acc + byteAt d i)) as [L U].
    pose proof (byteAt_range d i) as [B0 _].
    pose proof (H i (or_introl eq_refl)) as Bc.
    change (List.length (i :: l)) with (S (List.length l)).
    rewrite S_INR. lra.
Qed.

Lemma bandSum_bound (d : list byte) (c : R) (lo hi : nat) :
  (forall i, (lo <= i < hi)%nat -> byteAt d i <= c) ->
  0 <= bandSum d lo hi <= INR (hi - lo) * c.
Proof.
  intros H. unfold bandSum.
  destruct (fold_band_bound d c (seq lo (hi - lo))) with (acc := 0) as [L U].
  - intros i Hi. apply in_seq in Hi. apply H. lia.
  - rewrite length_seq in U. lra.
Qed.

(** The raw level of a band of [k] bins, [sum / (k * 255)], is at most
    [c / 255] when every bin is at most [c]. *)
Lemma raw_level_bound (d : list byte) (c : R) (lo hi : nat) (k : R) :
  (forall i, (lo <= i < hi)%nat -> byteAt d i <= c) ->
  k = INR (hi - lo) -> 0 < k ->
  0 <= bandSum d lo hi / (k * 255) <= c / 255.
Proof.
  intros H Hk Hpos.
  destruct (bandSum_bound d c lo hi H) as [L U]. rewrite <- Hk in U.
  split.
  - apply Rmult_le_pos; [exact L|].
    apply Rlt_le, Rinv_0_lt_compat. lra.
  - apply div_le_cross; nra.
Qed.

Lemma band_sizes (n : nat) :
  (50 < n)%nat ->
  6 = INR (6 - 0) /\ 44 = INR (50 - 6) /\ INR n - 50 = INR (n - 50) /\
  0 < INR n - 50.
Proof.
  intros Hn.
  assert (E : INR n - 50 = INR (n - 50)).
  { rewrite minus_INR by lia. rewrite (INR_IZR_INZ 50). simpl. lra. }
  repeat split.
  - simpl. lra.
  - rewrite minus_INR by lia. rewrite !INR_IZR_INZ. simpl. lra.
  - exact E.
  - rewrite E. apply lt_0_INR. lia.
Qed.

(** X6.  Whatever bytes the buffer holds, with more than 50 bins the raw
    level of each of the three bands, the sum of its bins over 255 times
    their number, lies in [0,1]. *)
Theorem raw_levels_in_unit_range (d : list byte) (n : nat) :
  (50 < n)%nat ->
  0 <= bandSum d 0 6 / (6 * 255) <= 1 /\
  0 <= bandSum d 6 50 / (44 * 255) <= 1 /\
  0 <= bandSum d 50 n / ((INR n - 50) * 255) <= 1.
Proof.
  intros Hn. destruct (band_sizes n Hn) as (K1 & K2 & K3 & K4).
  assert (Hb : forall lo hi i, (lo <= i < hi)%nat -> byteAt d i <= 255)
    by (intros; apply byteAt_range).
  replace 1 with (255 / 255) by (field; lra).
  repeat split;
    apply (raw_level_bound d 255 _ _ _ (Hb _ _)); solve [assumption|lra].
Qed.

Lemma raw_levels_in_unit_range_witness :
  0 <= bandSum (map Scenario.loud (seq 0 128)) 50 128
       / ((INR 128 - 50) * 255) <= 1.
Proof.
  apply (raw_levels_in_unit_range (map Scenario.loud (seq 0 128)) 128). lia.
Defined.

(** X7.  For a gate in [0,1) and a raw level in [0,1] the gated level is
    in [0,1] and never above the raw one, full scale stays full scale,
    and a louder raw level never gives a quieter gated one. *)
Theorem gated_range_and_order (r r' g : R) :
  0 <= g < 1 -> 0 <= r <= r' -> r' <= 1 ->
  0 <= gated r g <= r /\
  gated 1 g = 1 /\
  gated r g <= gated r' g.
Proof.
  intros Hg Hr Hr'. split; [|split].
  - unfold gated. destruct (Rgt_dec r g); [|lra]. split.
    + apply Rlt_le, Rdiv_lt_0_compat; lra.
    + apply (Rmult_le_reg_r (1 - g)); [lra|].
      replace ((r - g) / (1 - g) * (1 - g)) with (r - g) by (field; lra).
      nra.
  - apply gated_full. exact Hg.
  - unfold gated. destruct (Rgt_dec r g); destruct (Rgt_dec r' g); try lra.
    + apply (Rmult_le_reg_r (1 - g)); [lra|].
      replace ((r - g) / (1 - g) * (1 - g)) with (r - g) by (field; lra).
      replace ((r' - g) / (1 - g) * (1 - g)) with (r' - g) by (field; lra).
      lra.
    + apply Rlt_le, Rdiv_lt_0_compat; lra.
Qed.

Lemma gated_range_and_order_witness :
  0 <= gated 0.5 0.08 <= 0.5 /\ gated 1 0.08 = 1 /\
  gated 0.5 0.08 <= gated 0.75 0.08.
Proof. apply (gated_range_and_order 0.5 0.75 0.08); lra. Defined.

(** *** How far a tick moves a level *)

Lemma target_le_1 (raw sens w : R) : target raw sens w <= 1.
Proof. unfold target. apply Rmin_l. Qed.

Lemma band_step_slew (t c : R) :
  t <= 1 -> 0 <= c <= 1 ->
  c - 0.008 <= clamp01 (follow t c) <= c + 0.025 /\
  0 <= clamp01 (follow t c) <= 1.
Proof.
  intros Ht Hc. unfold follow, attack, release.
  destruct (Rgt_dec t c).
  - rewrite clamp01_id by nra. nra.
  - rewrite clamp01_id by nra. nra.
Qed.

Lemma max3_shift (a b c a' b' c' lo hi : R) :
  a - lo <= a' <= a + hi -> b - lo <= b' <= b + hi ->
  c - lo <= c' <= c + hi ->
  JS.max3 a b c - lo <= JS.max3 a' b' c' <= JS.max3 a b c + hi.
Proof.
  intros Ha Hb Hc. unfold JS.max3, Rmax.
  destruct (Rle_dec a b); destruct (Rle_dec a' b');
    repeat match goal with
           | |- context [Rle_dec ?x ?y] => destruct (Rle_dec x y)
           end; lra.
Qed.

(** X8.  A tick never jolts the levels.  From any state of a session and
    for any store and spectrum, every field of the voice record rises by
    at most 0.025 and falls by at most 0.1 in one tick, and by at most
    0.008 when the store is not muted. *)
Theorem tick_slew_limit (h : Hook) (store : DebugStore)
    (spectrum : nat -> byte) :
  reachable h ->
  let v := voiceData h in
  let v' := voiceData (analyse store spectrum h) in
  let lo := if isMuted store then 0.1 else 0.008 in
  lowEnergy v - lo <= lowEnergy v' <= lowEnergy v + 0.025 /\
  midEnergy v - lo <= midEnergy v' <= midEnergy v + 0.025 /\
  highEnergy v - lo <= highEnergy v' <= highEnergy v + 0.025 /\
  amplitude v - lo <= amplitude v' <= amplitude v + 0.025.
Proof.
  intros Hr. pose proof (voice_ok_reachable h Hr) as (Hl & Hm & Hh & Ha & He).
  cbv zeta. unfold analyse.
  destruct (analyserRef h);
    [|destruct (isMuted store); repeat split; lra].
  destruct (audioContextRef h);
    [|destruct (isMuted store); repeat split; lra].
  destruct (isMuted store);
    cbn [voiceData requestAnimationFrame set_voiceData set_frequencyData].
  - simpl. repeat split; lra.
  - unfold analyseBands. cbn [lowEnergy midEnergy highEnergy amplitude].
    match goal with
    | |- context [clamp01 (follow ?t (lowEnergy _))] =>
        destruct (band_step_slew t (lowEnergy (voiceData h))
                    (target_le_1 _ _ _) Hl) as [S1 _]
    end.
    match goal with
    | |- context [clamp01 (follow ?t (midEnergy _))] =>
        destruct (band_step_slew t (midEnergy (voiceData h))
                    (target_le_1 _ _ _) Hm) as [S2 _]
    end.
    match goal with
    | |- context [clamp01 (follow ?t (highEnergy _))] =>
        destruct (band_step_slew t (highEnergy (voiceData h))
                    (target_le_1 _ _ _) Hh) as [S3 _]
    end.
    split; [exact S1|]. split; [exact S2|]. split; [exact S3|].
    rewrite He. apply max3_shift; assumption.
Qed.

Lemma tick_slew_limit_witness :
  lowEnergy (voiceData Scenario.started) - 0.008
  <= lowEnergy (voiceData (analyse debugStore Scenario.loud Scenario.started))
  <= lowEnergy (voiceData Scenario.started) + 0.025.
Proof.
  apply (tick_slew_limit Scenario.started debugStore Scenario.loud).
  apply reachable_started.
Defined.

(** *** A spectrum under the gate *)

(** X9.  When no bin of the buffer exceeds 255 times the gate, an
    unmuted pass over it gives every band the target 0 whatever the
    sensitivity: each band energy is multiplied by 0.992 and none
    rises. *)
Theorem below_gate_only_decays (store : DebugStore) (d : list byte)
    (n : nat) (v : VoiceData) :
  (50 < n)%nat ->
  (forall i, (i < n)%nat -> byteAt d i <= 255 * noiseGate store) ->
  0 <= lowEnergy v <= 1 -> 0 <= midEnergy v <= 1 -> 0 <= highEnergy v <= 1 ->
  let v' := analyseBands store d n v in
  lowEnergy v' = lowEnergy v * 0.992 /\
  midEnergy v' = midEnergy v * 0.992 /\
  highEnergy v' = highEnergy v * 0.992.
Proof.
  intros Hn Hb Hl Hm Hh. cbv zeta.
  destruct (band_sizes n Hn) as (K1 & K2 & K3 & K4).
  assert (Hq : forall lo hi k, (hi <= n)%nat -> k = INR (hi - lo) -> 0 < k ->
             gated (bandSum d lo hi / (k * 255)) (noiseGate store) = 0).
  { intros lo hi k Hhi Hk Hpos.
    destruct (raw_level_bound d (255 * noiseGate store) lo hi k) as [_ U];
      try assumption.
    - intros i Hi. apply Hb. lia.
    - replace (255 * noiseGate store / 255) with (noiseGate store) in U
        by (field; lra).
      unfold gated. destruct (Rgt_dec _ _); lra. }
  unfold analyseBands. cbn [lowEnergy midEnergy highEnergy].
  rewrite (Hq 0%nat 6%nat 6), (Hq 6%nat 50%nat 44), (Hq 50%nat n (INR n - 50));
    try assumption; try lia; try lra.
  rewrite !target_silence.
  rewrite !follow_fall by assumption. auto.
Qed.

Lemma below_gate_only_decays_witness :
  lowEnergy (analyseBands debugStore (map Scenario.silent (seq 0 128)) 128
               (mkVoice 1 1 1 1)) = 1 * 0.992.
Proof.
  refine (proj1 (below_gate_only_decays debugStore
                   (map Scenario.silent (seq 0 128)) 128 (mkVoice 1 1 1 1)
                   _ _ _ _ _)).
  - lia.
  - intros i Hi. unfold byteAt. rewrite nth_map_seq by exact Hi.
    simpl. lra.
  - simpl. lra.
  - simpl. lra.
  - simpl. lra.
Defined.

End LevelFacts.

(** ** The animator beyond the shape parameters *)
Section AnimatorFacts.
Import Store Analyser Material Blob.

Lemma frames_app (fs gs : list Frame) (c : Component) :
  frames (fs ++ gs) c = frames gs (frames fs c).
Proof.
  revert c. induction fs as [|f fs IH]; intros c; [reflexivity|].
  simpl. apply IH.
Qed.

(** *** Fade-in *)

Lemma fade_step (f : Frame) (c : Component) :
  0 <= delta f ->
  0 <= fadeIn c <= 1 ->
  opacity (material c) = fadeIn c * fadeIn c ->
  (transparent (material c) = true <-> fadeIn c < 1) ->
  let c' := useFrame f c in
  fadeIn c' = Rmin 1 (fadeIn c + 0.7 * Rmin (delta f) 0.1) /\
  0 <= fadeIn c' <= 1 /\
  opacity (material c') = fadeIn c' * fadeIn c' /\
  (transparent (material c') = true <-> fadeIn c' < 1).
Proof.
  intros Hd Hf Ho Ht. cbv zeta.
  assert (Hdt : 0 <= Rmin (delta f) 0.1).
  { unfold Rmin. destruct (Rle_dec (delta f) 0.1); lra. }
  unfold useFrame. cbn [fadeIn material opacity transparent].
  set (dt := Rmin (delta f) 0.1) in *.
  destruct (Rlt_dec (fadeIn c) 1) as [Hlt|Hge].
  - replace (fadeIn c + dt * 0.7) with (fadeIn c + 0.7 * dt) by lra.
    set (g := Rmin 1 (fadeIn c + 0.7 * dt)).
    assert (Hg : 0 <= g <= 1).
    { unfold g, Rmin. destruct (Rle_dec 1 _); lra. }
    repeat split; try lra.
    + destruct (Rge_dec g 1); [discriminate|]. lra.
    + intros Hlt'. destruct (Rge_dec g 1); [lra|].
      apply Ht. exact Hlt.
  - assert (E : fadeIn c = 1) by lra.
    assert (Em : Rmin 1 (fadeIn c + 0.7 * dt) = fadeIn c).
    { unfold Rmin. destruct (Rle_dec 1 _); lra. }
    rewrite Em. repeat split; try lra; try assumption; apply Ht.
Qed.

Lemma cap_absorbs (x y : R) :
  0 <= y -> Rmin 1 (Rmin 1 x + y) = Rmin 1 (x + y).
Proof.
  intros Hy. unfold Rmin.
  destruct (Rle_dec 1 x); destruct (Rle_dec 1 (x + y));
    try destruct (Rle_dec 1 (1 + y)); lra.
Qed.

Lemma fade_frames (fs : list Frame) : forall c : Component,
  Forall (fun f => 0 <= delta f) fs ->
  0 <= fadeIn c <= 1 ->
  opacity (material c) = fadeIn c * fadeIn c ->
  (transparent (material c) = true <-> fadeIn c < 1) ->
  let c' := frames fs c in
  fadeIn c' = Rmin 1 (fadeIn c + 0.7 * elapsed fs) /\
  0 <= elapsed fs /\
  opacity (material c') = fadeIn c' * fadeIn c' /\
  (transparent (material c') = true <-> fadeIn c' < 1).
Proof.
  induction fs as [|f fs IH]; intros c Hd Hf Ho Ht; cbv zeta.
  - simpl. repeat split; try lra; try apply Ht; try assumption.
    unfold Rmin. destruct (Rle_dec 1 _); lra.
  - inversion Hd as [|? ? Hd1 Hd2]; subst.
    destruct (fade_step f c Hd1 Hf Ho Ht) as (S1 & S2 & S3 & S4).
    destruct (IH (useFrame f c) Hd2 S2 S3 S4) as (I1 & I2 & I3 & I4).
    cbv zeta in *. cbn [frames elapsed].
    assert (Hdt : 0 <= Rmin (delta f) 0.1).
    { unfold Rmin. destruct (Rle_dec (delta f) 0.1); lra. }
    split; [|split; [lra|split; assumption]].
    rewrite I1, S1, cap_absorbs by lra. f_equal. lra.
Qed.

(** X11.  From the mounted component, over frames whose deltas are not
    negative, the fade-in progress is 0.7 times the clamped frame time so
    far, capped at 1; the opacity is its square; and the material stays
    transparent exactly as long as the progress is below 1, so after
    10/7 s of clamped frame time the blob is opaque for good. *)
Theorem fade_in_progress (fs : list Frame) :
  Forall (fun f => 0 <= delta f) fs ->
  let c := frames fs mounted in
  fadeIn c = Rmin 1 (0.7 * elapsed fs) /\
  opacity (material c) = fadeIn c * fadeIn c /\
  (transparent (material c) = true <-> fadeIn c < 1) /\
  (10 / 7 <= elapsed fs ->
   fadeIn c = 1 /\ opacity (material c) = 1 /\
   transparent (material c) = false).
Proof.
  intros Hd.
  destruct (fade_frames fs mounted Hd) as (F1 & F2 & F3 & F4).
  - simpl. lra.
  - simpl. lra.
  - simpl. split; [lra|reflexivity].
  - cbv zeta in *. simpl in F1. rewrite Rplus_0_l in F1.
    split; [exact F1|]. split; [exact F3|]. split; [exact F4|].
    intros He.
    assert (E1 : fadeIn (frames fs mounted) = 1).
    { rewrite F1. unfold Rmin. destruct (Rle_dec 1 _); lra. }
    split; [exact E1|]. split; [rewrite F3, E1; lra|].
    destruct (transparent (material (frames fs mounted))); [|reflexivity].
    destruct F4 as [F4 _]. specialize (F4 eq_refl). lra.
Qed.

Lemma fade_in_progress_witness :
  fadeIn (frames [Scenario.peakFrame; Scenario.silentFrame] mounted)
  = Rmin 1 (0.7 * elapsed [Scenario.peakFrame; Scenario.silentFrame]).
Proof.
  apply (fade_in_progress [Scenario.peakFrame; Scenario.silentFrame]).
  repeat constructor; simpl; lra.
Defined.

(** *** A held level *)





(** *** The pointer push *)

Lemma pointer_step (f : Frame) (c : Component) :
  0 <= smoothedStrength c <= 0.4 ->
  mouseStrength (mouseUniforms (material c)) = smoothedStrength c ->
  mouseHit (mouseUniforms (material c)) = smoothedHit c ->
  mouseRadius (mouseUniforms (material c)) = 0.55 ->
  let c' := useFrame f c in
  0 <= smoothedStrength c' <= 0.4 /\
  mouseStrength (mouseUniforms (material c')) = smoothedStrength c' /\
  mouseHit (mouseUniforms (material c')) = smoothedHit c' /\
  mouseRadius (mouseUniforms (material c')) = 0.55.
Proof.
  intros Hs Hm Hh Hr. cbv zeta. unfold useFrame.
  cbn [smoothedStrength smoothedHit material mouseUniforms].
  destruct (meshRef c) as [me|];
    [destruct (S (raycastFrame c) mod 3 =? 0)%nat|];
    cbn [mouseStrength mouseHit mouseRadius];
    try (repeat split; solve [assumption | lra]).
  unfold pointerStrength. destruct (hit f); repeat split; try assumption; lra.
Qed.

(** X13.  From the mounted component, after any run of frames whatever
    the pointer did, the push strength lies in [0, 0.4], and the shader
    sees exactly the smoothed strength and the smoothed hit point, with
    the radius still 0.55. *)
Theorem pointer_push_invariant (fs : list Frame) :
  let c := frames fs mounted in
  0 <= smoothedStrength c <= 0.4 /\
  mouseStrength (mouseUniforms (material c)) = smoothedStrength c /\
  mouseHit (mouseUniforms (material c)) = smoothedHit c /\
  mouseRadius (mouseUniforms (material c)) = 0.55.
Proof.
  cbv zeta.
  assert (G : forall c,
    0 <= smoothedStrength c <= 0.4 /\
    mouseStrength (mouseUniforms (material c)) = smoothedStrength c /\
    mouseHit (mouseUniforms (material c)) = smoothedHit c /\
    mouseRadius (mouseUniforms (material c)) = 0.55 ->
    0 <= smoothedStrength (frames fs c) <= 0.4 /\
    mouseStrength (mouseUniforms (material (frames fs c)))
      = smoothedStrength (frames fs c) /\
    mouseHit (mouseUniforms (material (frames fs c)))
      = smoothedHit (frames fs c) /\
    mouseRadius (mouseUniforms (material (frames fs c))) = 0.55).
  { induction fs as [|f fs IH]; intros c Hc; [exact Hc|].
    simpl. apply IH. destruct Hc as (H1 & H2 & H3 & H4).
    apply pointer_step; assumption. }
  apply G. simpl. repeat split; lra.
Qed.

Lemma useFrame_hit (f : Frame) (c : Component) (me : Mesh) (p : vec3) :
  meshRef c = Some me -> hit f = Some p ->
  let went := (S (raycastFrame c) mod 3 =? 0)%nat in
  smoothedStrength (useFrame f c) =
    (if went then smoothedStrength c + (0.4 - smoothedStrength c) * 0.12
     else smoothedStrength c) /\
  smoothedHit (useFrame f c) =
    (if went then lerp (smoothedHit c) p 0.12 else smoothedHit c) /\
  raycastFrame (useFrame f c) = S (raycastFrame c) /\
  exists me', meshRef (useFrame f c) = Some me'.
Proof.
  intros Hm Hh. cbv zeta. unfold useFrame. rewrite Hm, Hh. simpl.
  destruct (_ =? 0)%nat; repeat split; try reflexivity;
    eexists; reflexivity.
Qed.

Lemma frames_hit (p : vec3) (fs : list Frame) :
  forall (c : Component) (me : Mesh),
  meshRef c = Some me -> Forall (fun f => hit f = Some p) fs ->
  let q := 0.88 ^ evaluations (raycastFrame c) (List.length fs) in
  0.4 - smoothedStrength (frames fs c) = (0.4 - smoothedStrength c) * q /\
  vx (smoothedHit (frames fs c)) - vx p = (vx (smoothedHit c) - vx p) * q /\
  vy (smoothedHit (frames fs c)) - vy p = (vy (smoothedHit c) - vy p) * q /\
  vz (smoothedHit (frames fs c)) - vz p = (vz (smoothedHit c) - vz p) * q /\
  raycastFrame (frames fs c) = (raycastFrame c + List.length fs)%nat /\
  exists me', meshRef (frames fs c) = Some me'.
Proof.
  induction fs as [|f fs IH]; intros c me Hm Hh; cbv zeta.
  - simpl. unfold evaluations.
    replace (raycastFrame c + 0)%nat with (raycastFrame c) by lia.
    rewrite Nat.sub_diag. simpl.
    repeat split; try lra; try lia. exists me. exact Hm.
  - inversion Hh as [|? ? Hf Hfs]; subst.
    destruct (useFrame_hit f c me p Hm Hf) as (S1 & S2 & S3 & me1 & S4).
    destruct (IH (useFrame f c) me1 S4 Hfs) as (I1 & I2 & I3 & I4 & I5 & I6).
    cbv zeta in *. cbn [frames List.length].
    rewrite I1, I2, I3, I4, I5, S1, S2, S3.
    unfold evaluations.
    destruct (Nat.eqb_spec (S (raycastFrame c) mod 3) 0) as [E|E].
    + replace ((raycastFrame c + S (List.length fs)) / 3 - raycastFrame c / 3)%nat
        with (S ((S (raycastFrame c) + List.length fs) / 3
                 - S (raycastFrame c) / 3)) by lia.
      cbn [pow lerp vx vy vz].
      repeat split; try lra; try lia. exact I6.
    + replace ((raycastFrame c + S (List.length fs)) / 3 - raycastFrame c / 3)%nat
        with ((S (raycastFrame c) + List.length fs) / 3
              - S (raycastFrame c) / 3)%nat by lia.
      repeat split; try lra; try lia. exact I6.
Qed.

(** X14.  While the ray keeps hitting the mounted mesh at the local
    point p, every evaluation (one in three frames) closes 12% of what
    separates the strength from 0.4 and each coordinate of the smoothed
    hit from p: after N evaluations 0.88^N of the initial distance is
    left, so the strength rises towards 0.4 without passing it. *)
Theorem pointer_hit_ramp (c : Component) (me : Mesh) (p : vec3)
    (fs : list Frame) (N : nat) :
  meshRef c = Some me ->
  Forall (fun f => hit f = Some p) fs ->
  evaluations (raycastFrame c) (List.length fs) = N ->
  let c' := frames fs c in
  0.4 - smoothedStrength c' = (0.4 - smoothedStrength c) * 0.88 ^ N /\
  vx (smoothedHit c') - vx p = (vx (smoothedHit c) - vx p) * 0.88 ^ N /\
  vy (smoothedHit c') - vy p = (vy (smoothedHit c) - vy p) * 0.88 ^ N /\
  vz (smoothedHit c') - vz p = (vz (smoothedHit c) - vz p) * 0.88 ^ N /\
  (smoothedStrength c <= 0.4 ->
   smoothedStrength c <= smoothedStrength c' <= 0.4).
Proof.
  intros Hm Hh HN.
  destruct (frames_hit p fs c me Hm Hh) as (E1 & E2 & E3 & E4 & _).
  cbv zeta in *. rewrite HN in *.
  repeat split; try assumption.
  - assert (0 <= 0.88 ^ N <= 1).
    { split; [apply pow_le; lra|].
      rewrite <- (pow1 N). apply pow_incr. lra. }
    nra.
  - assert (0 <= 0.88 ^ N) by (apply pow_le; lra). nra.
Qed.

Lemma pointer_hit_ramp_witness :
  0.4 - smoothedStrength
          (frames [Scenario.touchFrame; Scenario.touchFrame;
                   Scenario.touchFrame] mounted)
  = (0.4 - smoothedStrength mounted) * 0.88 ^ 1.
Proof.
  refine (proj1 (pointer_hit_ramp mounted
                   {| scale := mkVec3 1 1 1; rotationX := 0; rotationY := 0 |}
                   (mkVec3 0 0 1)
                   [Scenario.touchFrame; Scenario.touchFrame;
                    Scenario.touchFrame] 1 eq_refl _ eq_refl)).
  repeat constructor.
Defined.

(** *** Rotation and scale of the mesh *)

Lemma transform_step (f : Frame) (c : Component) (me : Mesh) :
  meshRef c = Some me ->
  exists me', meshRef (useFrame f c) = Some me' /\
    rotationY me' =
      rotationY me + 0.08 * (Rmin (delta f) 0.1 * animationSpeed (store f)) /\
    rotationX me' =
      rotationX me + 0.03 * (Rmin (delta f) 0.1 * animationSpeed (store f)) /\
    scale me' = mkVec3 (currentScale (useFrame f c))
                       (currentScale (useFrame f c))
                       (currentScale (useFrame f c)).
Proof.
  intros Hm. unfold useFrame. rewrite Hm. cbn [meshRef currentScale].
  eexists. split; [reflexivity|]. cbn [rotationY rotationX scale].
  repeat split; lra.
Qed.

Lemma transform_frames (fs : list Frame) :
  forall (c : Component) (me : Mesh),
  meshRef c = Some me ->
  exists me', meshRef (frames fs c) = Some me' /\
    rotationY me' = rotationY me + 0.08 * animationTime fs /\
    rotationX me' = rotationX me + 0.03 * animationTime fs /\
    (fs <> [] ->
     scale me' = mkVec3 (currentScale (frames fs c))
                        (currentScale (frames fs c))
                        (currentScale (frames fs c))).
Proof.
  induction fs as [|f fs IH]; intros c me Hm.
  - exists me. simpl. repeat split; try assumption; try lra.
    intros Hc. contradiction.
  - destruct (transform_step f c me Hm) as (me1 & M1 & Y1 & X1 & S1).
    destruct (IH (useFrame f c) me1 M1) as (me2 & M2 & Y2 & X2 & S2).
    exists me2. cbn [frames animationTime].
    split; [exact M2|]. split; [lra|]. split; [lra|].
    intros _. destruct fs as [|g fs'].
    + cbn [frames] in *. rewrite M1 in M2. injection M2 as <-. exact S1.
    + apply S2. discriminate.
Qed.

(** X15.  From the mounted component the mesh turns by 0.08 rad about Y
    and 0.03 rad about X per second of clamped frame time scaled by the
    animation speed, whatever the audio level; and once a frame has run
    it is scaled by the breathing scale on all three axes alike. *)
Theorem mesh_rotation_and_scale (fs : list Frame) :
  exists me, meshRef (frames fs mounted) = Some me /\
    rotationY me = 0.08 * animationTime fs /\
    rotationX me = 0.03 * animationTime fs /\
    (fs <> [] ->
     scale me = mkVec3 (currentScale (frames fs mounted))
                       (currentScale (frames fs mounted))
                       (currentScale (frames fs mounted))).
Proof.
  destruct (transform_frames fs mounted
              {| scale := mkVec3 1 1 1; rotationX := 0; rotationY := 0 |}
              eq_refl) as (me & M & Y & X & S).
  exists me. simpl in Y, X.
  split; [exact M|]. split; [lra|]. split; [lra|exact S].
Qed.

Lemma mesh_rotation_and_scale_witness :
  exists me, meshRef (frames [Scenario.peakFrame] mounted) = Some me /\
    scale me = mkVec3 (currentScale (frames [Scenario.peakFrame] mounted))
                      (currentScale (frames [Scenario.peakFrame] mounted))
                      (currentScale (frames [Scenario.peakFrame] mounted)).
Proof.
  destruct (mesh_rotation_and_scale [Scenario.peakFrame])
    as (me & M & _ & _ & S).
  exists me. split; [exact M|]. apply S. discriminate.
Defined.

(** *** A stalled frame *)

(** X16.  A frame delta of 0.1 s or more (a suspended tab coming back)
    has exactly the effect of a delta of 0.1 s. *)
Theorem long_delta_is_clamped (f : Frame) (c : Component) :
  0.1 <= delta f ->
  useFrame f c =
  useFrame {| delta := 0.1; store := store f; voice := voice f;
              hit := hit f; element := element f |} c.
Proof.
  intros Hd. unfold useFrame. cbn [delta store voice hit element].
  replace (Rmin (delta f) 0.1) with (Rmin 0.1 0.1); [reflexivity|].
  unfold Rmin.
  destruct (Rle_dec 0.1 0.1); destruct (Rle_dec (delta f) 0.1); lra.
Qed.

Lemma long_delta_is_clamped_witness :
  useFrame {| delta := 30; store := debugStore; voice := EMPTY_VOICE_DATA;
              hit := None; element := true |} mounted =
  useFrame {| delta := 0.1; store := debugStore; voice := EMPTY_VOICE_DATA;
              hit := None; element := true |} mounted.
Proof.
  apply (long_delta_is_clamped
           {| delta := 30; store := debugStore; voice := EMPTY_VOICE_DATA;
              hit := None; element := true |} mounted).
  simpl. lra.
Defined.

(** *** What the pointer and the telemetry cannot touch *)

Lemma same_animation_step (f g : Frame) (c c' : Component) :
  same_drive f g -> same_animation c c' ->
  same_animation (useFrame f c) (useFrame g c').
Proof.
  intros (Hd & Hs & Hv) (U & O & T & M & F & S).
  unfold same_animation, useFrame.
  cbn [material uniforms opacity transparent meshRef fadeIn currentScale].
  rewrite Hd, Hs, Hv, U, O, T, M, F, S.
  repeat split; reflexivity.
Qed.

(** X17.  Two runs of frames with the same deltas, stores and voice
    records leave the same uniforms, opacity, mesh transform, fade and
    scale, whatever the pointer hit and whether or not the telemetry
    element was there: neither the throttled raycast nor the throttled
    publication feeds back into the animation. *)
Theorem animation_ignores_pointer_and_telemetry (fs gs : list Frame)
    (c : Component) :
  Forall2 same_drive fs gs ->
  uniforms (material (frames fs c)) = uniforms (material (frames gs c)) /\
  opacity (material (frames fs c)) = opacity (material (frames gs c)) /\
  transparent (material (frames fs c))
    = transparent (material (frames gs c)) /\
  meshRef (frames fs c) = meshRef (frames gs c) /\
  fadeIn (frames fs c) = fadeIn (frames gs c) /\
  currentScale (frames fs c) = currentScale (frames gs c).
Proof.
  intros H.
  assert (G : forall c c', same_animation c c' ->
                same_animation (frames fs c) (frames gs c')).
  { induction H as [|f g fs gs Hfg _ IH]; intros c1 c2 Hc; [exact Hc|].
    simpl. apply IH. apply same_animation_step; assumption. }
  apply (G c c). repeat split; reflexivity.
Qed.

Lemma animation_ignores_pointer_and_telemetry_witness :
  uniforms (material (frames [Scenario.touchFrame] mounted))
  = uniforms (material (frames [Scenario.silentFrame] mounted)).
Proof.
  apply (animation_ignores_pointer_and_telemetry
           [Scenario.touchFrame] [Scenario.silentFrame] mounted).
  repeat constructor.
Defined.

(** *** The published levels *)

Lemma telemetry_step (f : Frame) (c : Component) :
  levelWriteCounter (useFrame f c) = S (levelWriteCounter c) /\
  levels (useFrame f c) =
    (if ((S (levelWriteCounter c) mod 6 =? 0)%nat && element f)%bool
     then Some (bandsOf f) else levels c).
Proof. split; reflexivity. Qed.

(** X18.  With the hidden element in the document, the levels it carries
    after a run of frames are those of the last frame whose number is a
    multiple of 6, which is one of the last six frames; before the first
    such frame they are what they were.  Without the element nothing is
    ever written. *)
Theorem telemetry_latest_value (fs : list Frame) (c : Component) :
  let n0 := levelWriteCounter c in
  let k := List.length fs in
  let M := (6 * ((n0 + k) / 6))%nat in
  levelWriteCounter (frames fs c) = (n0 + k)%nat /\
  (Forall (fun f => element f = false) fs ->
   levels (frames fs c) = levels c) /\
  (Forall (fun f => element f = true) fs ->
   (M <= n0 -> levels (frames fs c) = levels c)%nat /\
   (n0 < M ->
    (k - (M - n0 - 1) <= 6)%nat /\
    forall d, levels (frames fs c)
              = Some (bandsOf (nth (M - n0 - 1) fs d)))%nat).
Proof.
  cbv zeta. induction fs as [|f fs IH] using rev_ind.
  - cbn [frames List.length]. split; [lia|]. split; [reflexivity|]. intros _.
    split; [reflexivity|]. intros H. exfalso. lia.
  - destruct IH as (IC & IA & IP).
    rewrite frames_app. cbn [frames].
    destruct (telemetry_step f (frames fs c)) as (SC & SL).
    rewrite SC, SL, IC, length_app. cbn [List.length].
    set (n0 := levelWriteCounter c) in *.
    set (k := List.length fs) in *.
    replace (n0 + (k + 1))%nat with (S (n0 + k)) by lia.
    split; [reflexivity|]. split.
    + intros Ha. apply Forall_app in Ha. destruct Ha as [Hfs Hf].
      inversion Hf as [|? ? Hef _]; subst. rewrite Hef, andb_false_r.
      apply IA. exact Hfs.
    + intros Ha. apply Forall_app in Ha. destruct Ha as [Hfs Hf].
      inversion Hf as [|? ? Hef _]; subst. rewrite Hef, andb_true_r.
      destruct (IP Hfs) as [IP1 IP2].
      destruct (Nat.eqb_spec (S (n0 + k) mod 6) 0) as [E|E].
      * split; [intros H; exfalso; lia|].
        intros _. split; [lia|]. intros d.
        replace (6 * (S (n0 + k) / 6) - n0 - 1)%nat with k by lia.
        rewrite app_nth2 by (fold k; lia). fold k.
        rewrite Nat.sub_diag. reflexivity.
      * replace (6 * (S (n0 + k) / 6))%nat with (6 * ((n0 + k) / 6))%nat by lia.
        split; [exact IP1|].
        intros H. destruct (IP2 H) as [_ IP3].
        split; [lia|]. intros d.
        rewrite app_nth1 by (fold k; lia). apply IP3.
Qed.

Lemma telemetry_latest_value_witness :
  levels (frames [Scenario.peakFrame; Scenario.peakFrame; Scenario.peakFrame;
                  Scenario.peakFrame; Scenario.peakFrame; Scenario.silentFrame;
                  Scenario.peakFrame] mounted)
  = Some (bandsOf Scenario.silentFrame).
Proof.
  destruct (telemetry_latest_value
              [Scenario.peakFrame; Scenario.peakFrame; Scenario.peakFrame;
               Scenario.peakFrame; Scenario.peakFrame; Scenario.silentFrame;
               Scenario.peakFrame] mounted) as (_ & _ & Hp).
  destruct Hp as [_ Hp]; [repeat constructor|].
  destruct Hp as [_ Hp]; [simpl; lia|].
  exact (Hp Scenario.peakFrame).
Defined.

End AnimatorFacts.

(** ** The shaders beyond one period of the animation clock *)
Section FieldFacts.
Import Material Shader Fragment.

Lemma floor_bounds (x : R) : floor x <= x < floor x + 1.
Proof.
  unfold floor. destruct (base_Int_part x) as [H1 H2]. lra.
Qed.

Lemma floor_shift (x : R) (k : Z) : floor (x + IZR k) = floor x + IZR k.
Proof.
  unfold floor. rewrite <- plus_IZR. f_equal. symmetry.
  apply Int_part_spec. rewrite plus_IZR.
  destruct (base_Int_part x) as [H1 H2]. lra.
Qed.

Lemma mod_range (x y : R) :
  0 < y -> 0 <= mod_ x y < y.
Proof.
  intros Hy. unfold mod_.
  destruct (floor_bounds (x / y)) as [L U].
  assert (E : x = y * (x / y)) by (field; lra).
  split.
  - apply (Rmult_le_compat_l y) in L; [|lra]. lra.
  - apply (Rmult_lt_compat_l y) in U; [|lra]. lra.
Qed.

(** X19.  However far the clocks have run, [displace] reads the noise
    only at the point divided by a frequency and moved by an offset in
    [0, NOISE_PERIOD): two noise functions that agree on those samples
    give the same displacement. *)
Theorem displace_samples_one_period (pnoise1 pnoise2 : vec3 -> vec3 -> R)
    (u : BlobUniforms) (m : MouseUniforms) (point : vec3) :
  (forall s o, 0 <= o < NOISE_PERIOD ->
     pnoise1 (scaleOffset point s o) (splat NOISE_PERIOD)
     = pnoise2 (scaleOffset point s o) (splat NOISE_PERIOD)) ->
  displace pnoise1 u m point = displace pnoise2 u m point.
Proof.
  intros H. unfold displace.
  assert (Hp : 0 < NOISE_PERIOD) by (unfold NOISE_PERIOD; lra).
  rewrite (H (frequency u) (mod_ (time u * speed u) NOISE_PERIOD))
    by (apply mod_range; exact Hp).
  rewrite (H (surfaceFrequency u) (mod_ (surfaceTime u) NOISE_PERIOD))
    by (apply mod_range; exact Hp).
  reflexivity.
Qed.

Lemma displace_samples_one_period_witness :
  displace (fun p _ => vx p) BLOB_DEFAULTS createMouseUniforms (mkVec3 0 0 1)
  = displace (fun p _ => if Rlt_dec (vx p) 10 then vx p else 0)
      BLOB_DEFAULTS createMouseUniforms (mkVec3 0 0 1).
Proof.
  apply (displace_samples_one_period
           (fun p _ => vx p)
           (fun p _ => if Rlt_dec (vx p) 10 then vx p else 0)
           BLOB_DEFAULTS createMouseUniforms (mkVec3 0 0 1)).
  intros s o Ho. unfold NOISE_PERIOD in Ho. unfold scaleOffset. cbn [vx].
  destruct (Rlt_dec (0 / s + o) 10) as [_|Hn]; [reflexivity|].
  exfalso. apply Hn. unfold Rdiv. rewrite Rmult_0_l. lra.
Defined.

Lemma mod_periods (x y : R) (k : Z) :
  y <> 0 -> mod_ (x + IZR k * y) y = mod_ x y.
Proof.
  intros Hy. unfold mod_.
  replace ((x + IZR k * y) / y) with (x / y + IZR k) by (field; exact Hy).
  rewrite floor_shift. lra.
Qed.

(** X20.  The displacement is unchanged by any whole number of periods
    on either clock: k * 10 / speed on the animation clock (speed <> 0)
    and j * 10 on the surface clock, forwards or backwards, together or
    apart. *)
Theorem displace_whole_periods (pnoise : vec3 -> vec3 -> R)
    (u : BlobUniforms) (m : MouseUniforms) (point : vec3) (k j : Z) :
  speed u <> 0 ->
  displace pnoise
    (set_clocks (time u + IZR k * NOISE_PERIOD / speed u)
                (surfaceTime u + IZR j * NOISE_PERIOD) u) m point
  = displace pnoise u m point.
Proof.
  intros Hs. unfold displace. cbn [set_clocks time speed surfaceTime
    frequency distort surfaceDistort surfaceFrequency surfaceSpeed
    numberOfWaves fixNormals gooPoleAmount surfacePoleAmount].
  replace ((time u + IZR k * NOISE_PERIOD / speed u) * speed u)
    with (time u * speed u + IZR k * NOISE_PERIOD) by (field; exact Hs).
  rewrite !mod_periods by (unfold NOISE_PERIOD; lra). reflexivity.
Qed.

Lemma displace_whole_periods_witness :
  displace (fun p _ => vx p * vy p)
    (set_clocks (0 + IZR 3 * NOISE_PERIOD / 0.5)
                (0 + IZR (-2) * NOISE_PERIOD) BLOB_DEFAULTS)
    createMouseUniforms (mkVec3 0 0 1)
  = displace (fun p _ => vx p * vy p) BLOB_DEFAULTS
      createMouseUniforms (mkVec3 0 0 1).
Proof.
  apply (displace_whole_periods (fun p _ => vx p * vy p) BLOB_DEFAULTS
           createMouseUniforms (mkVec3 0 0 1) 3 (-2)).
  simpl. lra.
Defined.

Lemma displace_at_rest (pnoise : vec3 -> vec3 -> R)
    (u : BlobUniforms) (m : MouseUniforms) (point : vec3) :
  distort u = 0 -> surfaceDistort u = 0 -> mouseStrength m = 0 ->
  displace pnoise u m point = 0.
Proof.
  intros Hd Hs Hm. unfold displace, pow2. rewrite Hd, Hs, Hm. simpl. ring.
Qed.

(** X21.  With distort and surfaceDistort at 0 and no pointer push the
    displacement vanishes at every point, whatever the noise: the vertex
    stays where the base geometry has it. *)
Theorem displace_rest_shape (pnoise : vec3 -> vec3 -> R)
    (u : BlobUniforms) (m : MouseUniforms) (position normal : vec3) :
  distort u = 0 -> surfaceDistort u = 0 -> mouseStrength m = 0 ->
  displace pnoise u m position = 0 /\
  transformed pnoise u m position normal = position.
Proof.
  intros Hd Hs Hm.
  pose proof (displace_at_rest pnoise u m position Hd Hs Hm) as E.
  split; [exact E|].
  unfold transformed, add3, scale3. rewrite E.
  destruct position as [x y z]. simpl. f_equal; ring.
Qed.

Lemma displace_rest_shape_witness :
  displace (fun p _ => vx p)
    (set_shape 0 0.5 0 0.4 BLOB_DEFAULTS) createMouseUniforms
    (mkVec3 0 1 0) = 0.
Proof.
  apply (displace_rest_shape (fun p _ => vx p)
           (set_shape 0 0.5 0 0.4 BLOB_DEFAULTS) createMouseUniforms
           (mkVec3 0 1 0) (mkVec3 0 1 0)); simpl; lra.
Defined.

(** X22.  The pointer adds to the displacement a bump between 0 and the
    push strength, the full strength exactly at the hit point; the rest
    of the displacement does not depend on the pointer at all. *)
Theorem mouse_push_bump (pnoise : vec3 -> vec3 -> R)
    (u : BlobUniforms) (m : MouseUniforms) (point : vec3) :
  0 <= mouseStrength m -> mouseRadius m <> 0 ->
  let rest :=
    displace pnoise u
      {| mouseHit := mouseHit m; mouseRadius := mouseRadius m;
         mouseStrength := 0 |} point in
  rest <= displace pnoise u m point <= rest + mouseStrength m /\
  (forall m', displace pnoise u
                {| mouseHit := mouseHit m'; mouseRadius := mouseRadius m';
                   mouseStrength := 0 |} point = rest) /\
  displace pnoise u m (mouseHit m) =
    displace pnoise u
      {| mouseHit := mouseHit m; mouseRadius := mouseRadius m;
         mouseStrength := 0 |} (mouseHit m) + mouseStrength m.
Proof.
  intros Hs Hr. cbv zeta. unfold displace.
  cbn [mouseHit mouseRadius mouseStrength].
  set (base := _ * mix _ 1.0 (surfacePoleAmount u) + _).
  set (dist := length3 (sub3 point (mouseHit m))).
  assert (Hrr : 0 < mouseRadius m * mouseRadius m) by nra.
  assert (Hd : 0 <= dist) by (apply sqrt_pos).
  assert (He : 0 < exp (- dist * dist / (mouseRadius m * mouseRadius m)) <= 1).
  { split; [apply exp_pos|].
    rewrite <- exp_0. destruct (Req_dec dist 0) as [-> | Hn].
    - right. f_equal. field. lra.
    - left. apply exp_increasing.
      apply (Rmult_lt_reg_r (mouseRadius m * mouseRadius m)); [exact Hrr|].
      replace (- dist * dist / (mouseRadius m * mouseRadius m)
               * (mouseRadius m * mouseRadius m))
        with (- (dist * dist)) by (field; lra).
      nra. }
  split; [nra|]. split.
  - intros m'. ring.
  - unfold sub3, length3. cbn [vx vy vz].
    replace ((vx (mouseHit m) - vx (mouseHit m)) * (vx (mouseHit m) - vx (mouseHit m))
             + (vy (mouseHit m) - vy (mouseHit m)) * (vy (mouseHit m) - vy (mouseHit m))
             + (vz (mouseHit m) - vz (mouseHit m)) * (vz (mouseHit m) - vz (mouseHit m)))
      with 0 by ring.
    rewrite sqrt_0.
    replace (- 0 * 0 / (mouseRadius m * mouseRadius m)) with 0 by (field; lra).
    rewrite exp_0. ring.
Qed.

Lemma mouse_push_bump_witness :
  displace (fun p _ => vx p) BLOB_DEFAULTS
    {| mouseHit := mkVec3 0 0 1; mouseRadius := 0.55; mouseStrength := 0.4 |}
    (mkVec3 0 0 1)
  = displace (fun p _ => vx p) BLOB_DEFAULTS
      {| mouseHit := mkVec3 0 0 1; mouseRadius := 0.55; mouseStrength := 0 |}
      (mkVec3 0 0 1) + 0.4.
Proof.
  refine (proj2 (proj2 (mouse_push_bump (fun p _ => vx p) BLOB_DEFAULTS
     {| mouseHit := mkVec3 0 0 1; mouseRadius := 0.55; mouseStrength := 0.4 |}
     (mkVec3 0 0 1) _ _))); simpl; lra.
Defined.

(** *** Tangents and the corrected normal *)

Lemma length3_sq (v : vec3) : length3 v * length3 v = dot3 v v.
Proof.
  unfold length3, dot3. apply sqrt_sqrt. nra.
Qed.

Lemma length3_unit (v : vec3) : dot3 v v = 1 -> length3 v = 1.
Proof.
  intros H. unfold length3. change (sqrt (dot3 v v) = 1).
  rewrite H. apply sqrt_1.
Qed.

Lemma normalize3_of_unit (v : vec3) : dot3 v v = 1 -> normalize3 v = v.
Proof.
  intros H. unfold normalize3. rewrite (length3_unit v H).
  destruct v as [x y z]. simpl. f_equal; field.
Qed.

Lemma normalize3_is_unit (v : vec3) :
  0 < dot3 v v -> dot3 (normalize3 v) (normalize3 v) = 1.
Proof.
  intros H. pose proof (length3_sq v) as Hl.
  assert (Hp : length3 v <> 0).
  { intros E. rewrite E in Hl. lra. }
  unfold normalize3, dot3 in *. cbn [vx vy vz].
  set (L := length3 v) in *.
  replace (vx v / L * (vx v / L) + vy v / L * (vy v / L) + vz v / L * (vz v / L))
    with ((vx v * vx v + vy v * vy v + vz v * vz v) / (L * L)) by (field; exact Hp).
  rewrite Hl. field. lra.
Qed.

Lemma normalize3_dot (v w : vec3) :
  dot3 (normalize3 v) w = dot3 v w / length3 v.
Proof. unfold normalize3, dot3. cbn [vx vy vz]. unfold Rdiv. ring. Qed.

Lemma orthogonal_facts (v : vec3) :
  vx v <> 0 \/ vy v <> 0 \/ vz v <> 0 ->
  dot3 (orthogonal v) v = 0 /\ length3 (orthogonal v) = 1.
Proof.
  intros Hv. unfold orthogonal.
  replace 0.0 with 0 by lra.
  destruct (Rgt_dec (Rabs (vx v)) (Rabs (vz v))) as [Hgt|Hle].
  - assert (Hx : vx v <> 0).
    { intros E. rewrite E, Rabs_R0 in Hgt. pose proof (Rabs_pos (vz v)). lra. }
    split.
    + rewrite normalize3_dot. unfold dot3. cbn [vx vy vz].
      unfold Rdiv. ring.
    + apply length3_unit, normalize3_is_unit.
      unfold dot3. cbn [vx vy vz]. nra.
  - assert (Hyz : vy v <> 0 \/ vz v <> 0).
    { destruct (Req_dec (vz v) 0) as [Ez|Ez]; [|right; exact Ez].
      left. rewrite Ez, Rabs_R0 in Hle.
      assert (Ex : vx v = 0).
      { destruct (Req_dec (vx v) 0) as [E|E]; [exact E|].
        apply Rabs_pos_lt in E. lra. }
      destruct Hv as [H|[H|H]]; [contradiction|exact H|contradiction]. }
    split.
    + rewrite normalize3_dot. unfold dot3. cbn [vx vy vz].
      unfold Rdiv. ring.
    + apply length3_unit, normalize3_is_unit.
      unfold dot3. cbn [vx vy vz]. destruct Hyz; nra.
Qed.

(** X23.  For every vector other than the zero vector, [orthogonal]
    returns a unit vector perpendicular to it. *)
Theorem orthogonal_unit_perpendicular (v : vec3) :
  vx v <> 0 \/ vy v <> 0 \/ vz v <> 0 ->
  dot3 (orthogonal v) v = 0 /\
  dot3 (orthogonal v) (orthogonal v) = 1 /\
  length3 (orthogonal v) = 1.
Proof.
  intros Hv. destruct (orthogonal_facts v Hv) as [Hp Hl].
  split; [exact Hp|]. split; [|exact Hl].
  rewrite <- length3_sq, Hl. ring.
Qed.

Lemma orthogonal_unit_perpendicular_witness :
  dot3 (orthogonal (mkVec3 1 2 3)) (mkVec3 1 2 3) = 0.
Proof.
  apply (orthogonal_unit_perpendicular (mkVec3 1 2 3)).
  left. simpl. lra.
Defined.

Lemma cross_of_unit_pair (n t : vec3) :
  dot3 n n = 1 -> dot3 t t = 1 -> dot3 t n = 0 ->
  dot3 (cross3 n t) (cross3 n t) = 1.
Proof.
  intros Hn Ht Htn. unfold dot3, cross3 in *. cbn [vx vy vz] in *.
  set (a := vx n) in *. set (b := vy n) in *. set (c := vz n) in *.
  set (x := vx t) in *. set (y := vy t) in *. set (z := vz t) in *.
  replace ((b * z - c * y) * (b * z - c * y) + (c * x - a * z) * (c * x - a * z)
           + (a * y - b * x) * (a * y - b * x))
    with ((a * a + b * b + c * c) * (x * x + y * y + z * z)
          - (x * a + y * b + z * c) * (x * a + y * b + z * c)) by ring.
  rewrite Hn, Ht, Htn. ring.
Qed.

Lemma corrected_normal_flat (p n t : vec3) (d eps : R) :
  0 < eps -> dot3 n n = 1 -> dot3 t t = 1 -> dot3 t n = 0 ->
  normalize3
    (cross3
       (sub3 (add3 (add3 p (scale3 t eps)) (scale3 n d))
             (add3 p (scale3 n d)))
       (sub3 (add3 (add3 p (scale3 (normalize3 (cross3 n t)) eps))
                   (scale3 n d))
             (add3 p (scale3 n d))))
  = n.
Proof.
  intros He Hn Ht Htn.
  rewrite (normalize3_of_unit (cross3 n t))
    by (apply cross_of_unit_pair; assumption).
  assert (E : cross3
       (sub3 (add3 (add3 p (scale3 t eps)) (scale3 n d))
             (add3 p (scale3 n d)))
       (sub3 (add3 (add3 p (scale3 (cross3 n t) eps)) (scale3 n d))
             (add3 p (scale3 n d)))
     = scale3 n (eps * eps)).
  { unfold dot3 in *. destruct p as [px py pz], n as [a b c], t as [x y z].
    unfold cross3, sub3, add3, scale3. cbn [vx vy vz] in *.
    f_equal.
    - replace (a * (eps * eps))
        with (eps * eps * (a * (x * x + y * y + z * z) - x * (x * a + y * b + z * c)))
        by (rewrite Ht, Htn; ring).
      ring.
    - replace (b * (eps * eps))
        with (eps * eps * (b * (x * x + y * y + z * z) - y * (x * a + y * b + z * c)))
        by (rewrite Ht, Htn; ring).
      ring.
    - replace (c * (eps * eps))
        with (eps * eps * (c * (x * x + y * y + z * z) - z * (x * a + y * b + z * c)))
        by (rewrite Ht, Htn; ring).
      ring. }
  rewrite E.
  assert (L : length3 (scale3 n (eps * eps)) = eps * eps).
  { unfold length3, scale3. cbn [vx vy vz].
    replace (vx n * (eps * eps) * (vx n * (eps * eps))
             + vy n * (eps * eps) * (vy n * (eps * eps))
             + vz n * (eps * eps) * (vz n * (eps * eps)))
      with ((eps * eps) * (eps * eps) * dot3 n n) by (unfold dot3; ring).
    rewrite Hn, Rmult_1_r. apply sqrt_square. nra. }
  unfold normalize3. rewrite L. destruct n as [a b c].
  unfold scale3. cbn [vx vy vz]. f_equal; field; lra.
Qed.

(** X24.  Where the displacement is locally flat, taking the same value
    at the vertex and at its two tangential samples, the corrected
    normal of a unit normal is that normal itself, with the correction on
    or off. *)
Theorem flat_displacement_keeps_normal (pnoise : vec3 -> vec3 -> R)
    (u : BlobUniforms) (m : MouseUniforms) (position normal : vec3) :
  dot3 normal normal = 1 ->
  displace pnoise u m (add3 position (scale3 (orthogonal normal) 0.005))
    = displace pnoise u m position ->
  displace pnoise u m
    (add3 position
       (scale3 (normalize3 (cross3 normal (orthogonal normal))) 0.005))
    = displace pnoise u m position ->
  blobObjectNormal pnoise u m position normal = normal.
Proof.
  intros Hn H0 H1. unfold blobObjectNormal.
  destruct (Rgt_dec (fixNormals u) 0.5); [|reflexivity].
  cbv zeta. rewrite H0, H1.
  assert (Hnz : vx normal <> 0 \/ vy normal <> 0 \/ vz normal <> 0).
  { destruct (Req_dec (vx normal) 0) as [Ex|Ex]; [|left; exact Ex].
    destruct (Req_dec (vy normal) 0) as [Ey|Ey]; [|right; left; exact Ey].
    right; right. intros Ez. unfold dot3 in Hn. rewrite Ex, Ey, Ez in Hn. lra. }
  destruct (orthogonal_facts normal Hnz) as [Hperp Hlen].
  apply corrected_normal_flat; try assumption; try lra.
  rewrite <- length3_sq, Hlen. ring.
Qed.

Lemma flat_displacement_keeps_normal_witness :
  blobObjectNormal (fun p _ => vx p)
    (set_shape 0 0.5 0 0.4 BLOB_DEFAULTS) createMouseUniforms
    (mkVec3 0 1 0) (mkVec3 0 1 0)
  = mkVec3 0 1 0.
Proof.
  apply (flat_displacement_keeps_normal (fun p _ => vx p)
           (set_shape 0 0.5 0 0.4 BLOB_DEFAULTS) createMouseUniforms
           (mkVec3 0 1 0) (mkVec3 0 1 0)).
  - unfold dot3. simpl. lra.
  - rewrite !displace_at_rest; try reflexivity; simpl; lra.
  - rewrite !displace_at_rest; try reflexivity; simpl; lra.
Defined.

(** *** The colour field *)

Lemma bell_range (t center width : R) : 0 < bell t center width <= 1.
Proof.
  unfold bell. cbv zeta. set (d := (t - center) / width).
  split; [apply exp_pos|].
  rewrite <- exp_0.
  destruct (Req_dec d 0) as [-> | Hd].
  - right. f_equal. lra.
  - left. apply exp_increasing. nra.
Qed.


Lemma ratio_in_unit (n d : R) : 0 <= n -> n < d -> 0 <= n / d < 1.
Proof.
  intros Hn Hd. split.
  - apply Rmult_le_pos; [exact Hn|]. apply Rlt_le, Rinv_0_lt_compat. lra.
  - apply (Rmult_lt_reg_r d); [lra|].
    replace (n / d * d) with n by (field; lra). lra.
Qed.

(** X26.  Whatever the gradient parameter, each channel of
    [meshGradient] lies in [0, 1): the palette is blended by weights that
    are all positive, over a sum that exceeds theirs. *)
Theorem meshGradient_in_gamut (t : R) :
  0 <= vx (meshGradient t) < 1 /\
  0 <= vy (meshGradient t) < 1 /\
  0 <= vz (meshGradient t) < 1.
Proof.
  unfold meshGradient. cbv zeta.
  pose proof (bell_range t 0.0 0.38) as B1.
  pose proof (bell_range t 1.0 0.38) as B2.
  pose proof (bell_range t 0.32 0.32) as B3.
  pose proof (bell_range t 0.44 0.30) as B4.
  pose proof (bell_range t 0.72 0.40) as B5.
  pose proof (bell_range t 0.18 0.26) as B6.
  pose proof (bell_range t 0.58 0.36) as B7.
  set (b1 := bell t 0.0 0.38) in *. set (b2 := bell t 1.0 0.38) in *.
  set (b3 := bell t 0.32 0.32) in *. set (b4 := bell t 0.44 0.30) in *.
  set (b5 := bell t 0.72 0.40) in *. set (b6 := bell t 0.18 0.26) in *.
  set (b7 := bell t 0.58 0.36) in *.
  unfold add3, scale3, COL_HOT_PINK, COL_DEEP_INDIGO, COL_BLUE_VIOLET,
    COL_WARM_ORANGE, COL_MAGENTA, COL_CORAL_PINK.
  cbn [vx vy vz].
  repeat split; apply ratio_in_unit; lra.
Qed.

(** X27.  The colour of a fragment repeats when the animation clock
    advances by any whole number of 40 units: its time enters only as
    mod(time * 0.25, 10). *)
Theorem diffuseColor_periodic (pnoise : vec3 -> vec3 -> R) (time : R)
    (k : Z) (localPos camera worldPos normal : vec3) :
  diffuseColor pnoise (time + IZR k * 40) localPos camera worldPos normal
  = diffuseColor pnoise time localPos camera worldPos normal.
Proof.
  unfold diffuseColor.
  replace ((time + IZR k * 40) * 0.25) with (time * 0.25 + IZR k * 10.0) by lra.
  rewrite mod_periods by lra. reflexivity.
Qed.

End FieldFacts.

(** ** The page *)
Section AppFacts.
Import Store Analyser App.

(** X28.  Enabling the microphone.  When the platform refuses, the
    button is left showing and not faded, one alert is raised, no hide
    timeout is added and the panel is no more shown than before; the
    session is reset but can be retried.  When the platform grants a
    stream and resumes the context, the button stays faded with its hide
    timeout pending, the panel is shown, no alert is raised, and the
    timeout then hides the button. *)
Theorem handleEnableMic_outcome (p : Platform) (a : AppState) :
  (getUserMedia p None = None ->
   showButton (handleEnableMic p a) = showButton a /\
   buttonFading (handleEnableMic p a) = false /\
   alerts (handleEnableMic p a) = S (alerts a) /\
   hideTimer (handleEnableMic p a) = hideTimer a /\
   panelShown (handleEnableMic p a) = panelShown a /\
   voiceData (hook (handleEnableMic p a)) = EMPTY_VOICE_DATA) /\
  (forall stream, getUserMedia p None = Some stream -> resume p = true ->
   buttonFading (handleEnableMic p a) = true /\
   hideTimer (handleEnableMic p a) = true /\
   alerts (handleEnableMic p a) = alerts a /\
   panelShown (handleEnableMic p a) = true /\
   streamRef (hook (handleEnableMic p a)) = Some stream /\
   showButton (hideButton (handleEnableMic p a)) = false).
Proof.
  unfold handleEnableMic, panelShown. cbv zeta.
  rewrite startListening_phases. cbn [deviceConstraint].
  split.
  - intros Hg. rewrite Hg. cbn [fst snd hook showButton buttonFading alerts
      hideTimer].
    destruct (teardown_fields (hook a)) as (T1 & _ & _ & _ & _ & _ & _ & _ & _ & T10).
    rewrite T1, T10. repeat split; reflexivity.
  - intros stream Hg Hres. rewrite Hg, Hres. cbv zeta.
    destruct (state (contextFor p (adopt p stream (teardown (hook a)))));
      cbn [fst snd hook showButton buttonFading alerts hideTimer hideButton];
      match goal with
      | |- context [wire ?ctx stream ?h3] =>
          destruct (wire_fields ctx stream h3)
            as (_ & W2 & _ & _ & _ & _ & _ & _ & _ & _ & W11);
          rewrite W2, W11
      end;
      cbn [set_graph streamRef];
      destruct (adopt_fields p stream (teardown (hook a))) as (_ & A2 & _);
      rewrite A2; repeat split; reflexivity.
Qed.

Lemma handleEnableMic_outcome_witness :
  buttonFading (handleEnableMic Scenario.denying initialApp) = false /\
  panelShown (handleEnableMic Scenario.granting initialApp) = true.
Proof.
  destruct (handleEnableMic_outcome Scenario.denying initialApp) as [Hd _].
  destruct (handleEnableMic_outcome Scenario.granting initialApp) as [_ Hg].
  split.
  - apply Hd. reflexivity.
  - apply (Hg (mkStream "mic" "Built-in" true)); reflexivity.
Defined.

Lemma toggle_step (a : AppState) :
  Store.isMuted (store (handleMuteToggle a)) = isMuted (handleMuteToggle a) /\
  isMuted (handleMuteToggle a) = negb (isMuted a) /\
  sensitivity (store (handleMuteToggle a)) = sensitivity (store a) /\
  noiseGate (store (handleMuteToggle a)) = noiseGate (store a) /\
  animationSpeed (store (handleMuteToggle a)) = animationSpeed (store a) /\
  hook (handleMuteToggle a) = hook a.
Proof. repeat split; reflexivity. Qed.

(** X29.  After any number of mute toggles from the initial page the
    flag in the store agrees with the one the button shows, it is set
    exactly after an odd number of toggles, and the sliders' values and
    the session are untouched: the analyser fades exactly when the
    button says muted. *)
Theorem mute_toggle_in_sync (n : nat) :
  let a := toggles n initialApp in
  Store.isMuted (store a) = isMuted a /\
  isMuted a = Nat.odd n /\
  sensitivity (store a) = sensitivity debugStore /\
  noiseGate (store a) = noiseGate debugStore /\
  animationSpeed (store a) = animationSpeed debugStore /\
  hook a = initialHook.
Proof.
  cbv zeta. unfold toggles. induction n as [|n IH].
  - simpl. repeat split; reflexivity.
  - destruct IH as (I1 & I2 & I3 & I4 & I5 & I6).
    rewrite Nat.iter_succ.
    destruct (toggle_step (Nat.iter n handleMuteToggle initialApp))
      as (S1 & S2 & S3 & S4 & S5 & S6).
    rewrite S1, S2, S3, S4, S5, S6, I2, I3, I4, I5, I6.
    rewrite Nat.odd_succ, <- Nat.negb_odd.
    repeat split; reflexivity.
Qed.

End AppFacts.
